(** * dave: the WebDAV filesystem adapters [Dir] and [UserDir]

    A shallow embedding of [app.Dir] (path resolution, permission gate and
    the five filesystem operations) and of [app.UserDir] (src/app/fs.go),
    together with the lexical path functions of Go's [path] and
    [path/filepath] packages that [resolve] is built from. *)

From Stdlib Require Import ZArith Ascii String Bool Lia.
From stdpp Require Import base option list gmap strings.

Local Open Scope list_scope.

(** ** Go strings

    A Go string is an immutable sequence of bytes; [string] is the same
    thing, and [bytes]/[str] move between it and the list of its bytes,
    on which the scanning loops below run. *)

Definition bytes (s : string) : list ascii := list_ascii_of_string s.
Definition str (l : list ascii) : string := string_of_list_ascii l.

Definition NUL : ascii := Ascii.zero.
Definition slash : ascii := "/"%char.
Definition backslash : ascii := "\"%char.
Definition dot : ascii := "."%char.

Definition is_slash (c : ascii) : bool := Ascii.eqb c slash.
Definition is_dot (c : ascii) : bool := Ascii.eqb c dot.

(** [strings.IndexByte(s, c) >= 0]; for the one-byte runes used here this is
    also [strings.IndexRune(s, c) >= 0] and [strings.Contains(s, string(c))]. *)
Definition contains_byte (c : ascii) (s : string) : bool :=
  existsb (Ascii.eqb c) (bytes s).

(** ** The platform

    [filepath.Separator] and [os.IsPathSeparator] are the platform facts the
    adapters and [path/filepath] consult.  Volume names (drive letters, UNC
    prefixes, and what [path/filepath] does about a colon on Windows) are
    outside this model: every path has the empty volume name, as on Unix
    and Plan 9. *)

Inductive GOOS := unix | windows.

Definition Separator (os : GOOS) : ascii :=
  match os with unix => slash | windows => backslash end.

Definition IsPathSeparator (os : GOOS) (c : ascii) : bool :=
  match os with
  | unix => is_slash c
  | windows => Ascii.eqb c backslash || is_slash c
  end.

(** ** [path.Clean] and [filepath.Clean]

    Both packages run the same loop; only the separator written ([sep]) and
    the bytes read as separators ([is_sep]) differ.  The output buffer
    ([lazybuf]) is kept as the reversed list of the bytes written so far, so
    [out.w] is its length and [out.append] is a cons. *)

Module Lexical.
Section Loop.
Variable sep : ascii.
Variable is_sep : ascii -> bool.
Variable rooted : bool.

(** [r+k == n || is_sep(path[r+k])], with [p] the bytes from [r+k] on. *)
Definition at_boundary (p : list ascii) : bool :=
  match p with
  | [] => true
  | c :: _ => is_sep c
  end.

(** [out.w--; for out.w > dotdot && !is_sep(out.index(out.w)) { out.w-- }]:
    [c] is the byte just dropped, which is what [out.index(out.w)] reads. *)
Fixpoint backtrack (dotdot : nat) (out : list ascii) : list ascii :=
  match out with
  | [] => []
  | c :: out' =>
      if (dotdot <? length out') && negb (is_sep c)
      then backtrack dotdot out'
      else out'
  end.

(** [if rooted && out.w != 1 || !rooted && out.w != 0 { out.append(sep) }] *)
Definition add_slash (out : list ascii) : list ascii :=
  if (rooted && negb (length out =? 1)) || (negb rooted && negb (length out =? 0))
  then sep :: out else out.

(** The [..] element: backtrack if possible, else (unrooted) append [..]
    and move [dotdot] past it.  Returns the buffer and the new [dotdot]. *)
Definition dotdot_element (out : list ascii) (dotdot : nat) : list ascii * nat :=
  if dotdot <? length out then (backtrack dotdot out, dotdot)
  else if negb rooted then
    let out1 := if 0 <? length out then sep :: out else out in
    let out2 := dot :: dot :: out1 in
    (out2, length out2)
  else (out, dotdot).

(** [for r < n { switch ... }], by recursion on the bytes [p] not yet
    read.  [copying] is true inside the inner loop of the default case
    ([for ; r < n && !is_sep(path[r]); r++ { out.append(path[r]) }]). *)
Fixpoint clean_loop (copying : bool) (p : list ascii)
         (out : list ascii) (dotdot : nat) {struct p} : list ascii :=
  match p with
  | [] => out
  | c :: p1 =>
      if copying then
        if is_sep c then clean_loop false p1 out dotdot
        else clean_loop true p1 (c :: out) dotdot
      else if is_sep c then
        (* empty path element *)
        clean_loop false p1 out dotdot
      else if is_dot c && at_boundary p1 then
        (* . element *)
        clean_loop false p1 out dotdot
      else
        match p1 with
        | c2 :: p2 =>
            if is_dot c && is_dot c2 && at_boundary p2 then
              (* .. element *)
              let '(out', dotdot') := dotdot_element out dotdot in
              clean_loop false p2 out' dotdot'
            else
              (* real path element *)
              clean_loop true p1 (c :: add_slash out) dotdot
        | [] => clean_loop true p1 (c :: add_slash out) dotdot
        end
  end.
End Loop.

(** The body shared by [path.Clean] and [filepath.Clean] after the
    empty-path test: set up [rooted], run the loop, turn an empty buffer
    into ["."]. *)
Definition clean_bytes (sep : ascii) (is_sep : ascii -> bool)
           (p : list ascii) : list ascii :=
  match p with
  | [] => [dot]
  | c :: p1 =>
      let rooted := is_sep c in
      let out :=
        if rooted then clean_loop sep is_sep rooted false p1 [sep] 1
        else clean_loop sep is_sep rooted false p [] 0 in
      if length out =? 0 then [dot] else rev out
  end.
End Lexical.

(** [path.Clean] (package path: the separator is always a slash). *)
Definition path_Clean (p : string) : string :=
  str (Lexical.clean_bytes slash is_slash (bytes p)).

(** [filepath.FromSlash]: [strings.ReplaceAll(path, "/", string(Separator))],
    the identity where the separator is a slash. *)
Definition filepath_FromSlash (os : GOOS) (p : string) : string :=
  match os with
  | unix => p
  | windows => str (map (fun c => if is_slash c then Separator os else c) (bytes p))
  end.

(** [filepath.Clean]; it ends in [FromSlash(out.string())]. *)
Definition filepath_Clean (os : GOOS) (p : string) : string :=
  filepath_FromSlash os
    (str (Lexical.clean_bytes (Separator os) (IsPathSeparator os) (bytes p))).

(** [strings.Join(elem, sep)]. *)
Fixpoint strings_Join (elem : list string) (sep : string) : string :=
  match elem with
  | [] => ""%string
  | [e] => e
  | e :: rest => (e +:+ sep +:+ strings_Join rest sep)%string
  end.

(** [filepath.Join]: the elements from the first non-empty one on are joined
    with the separator and cleaned; no non-empty element gives [""].  (On
    Windows [Join] differs from this in its care for volume names only.) *)
Fixpoint filepath_Join (os : GOOS) (elem : list string) : string :=
  match elem with
  | [] => ""%string
  | e :: rest =>
      if String.eqb e "" then filepath_Join os rest
      else filepath_Clean os (strings_Join elem (str [Separator os]))
  end.


(** ** Values of the [os] package *)

(** [os.FileMode], and the [flag int] of [os.OpenFile]. *)
Definition FileMode := Z.

(** [os.O_RDWR]; [O_RDONLY] is 0 and [O_WRONLY] is 1 on every platform. *)
Definition O_RDWR : Z := 2.

(** What the adapters read of an [os.FileInfo]. *)
Record FileInfo := { fi_Name : string; fi_Size : Z; fi_ModTime : Z; fi_IsDir : bool }.

(** [stat != nil && stat.IsDir()] for the [os.FileInfo] of [os.Stat]. *)
Definition is_dir (stat : option FileInfo) : bool :=
  match stat with
  | Some fi => fi_IsDir fi
  | None => false
  end.

(** An open [*os.File] (a [webdav.File] once returned). *)
Record File := { fd : Z }.

(** The errors the [os] functions produce: [*PathError] and, for
    [os.Rename], [*LinkError]. *)
Inductive syserr :=
| PathError (op path : string) (errno : Z)
| LinkError (op oldpath newpath : string) (errno : Z).

(** A non-nil Go [error] as the adapters return it: one of the three
    sentinels they name, or an error of the [os] call passed through. *)
Inductive error :=
| ErrNotExist
| ErrPermission
| ErrInvalid
| SysErr (e : syserr).

(** ** Programs

    An adapter operation computes, may call the [os] package or the logger,
    and then returns or panics.  [Prog A] is the tree of what it does: each
    call node carries the arguments and continues with the call's result. *)

Inductive Prog (A : Type) : Type :=
| Ret (a : A)
| Panic
| os_Mkdir (name : string) (perm : FileMode) (k : option syserr -> Prog A)
| os_OpenFile (name : string) (flag : Z) (perm : FileMode)
    (k : option File * option syserr -> Prog A)
| os_RemoveAll (name : string) (k : option syserr -> Prog A)
| os_Rename (oldpath newpath : string) (k : option syserr -> Prog A)
| os_Stat (name : string) (k : option FileInfo * option syserr -> Prog A)
| log_Info (fields : list (string * string)) (msg : string) (k : Prog A).

Arguments Ret {A} a.
Arguments Panic {A}.
Arguments os_Mkdir {A} name perm k.
Arguments os_OpenFile {A} name flag perm k.
Arguments os_RemoveAll {A} name k.
Arguments os_Rename {A} oldpath newpath k.
Arguments os_Stat {A} name k.
Arguments log_Info {A} fields msg k.

Fixpoint bind {A B : Type} (m : Prog A) (f : A -> Prog B) : Prog B :=
  match m with
  | Ret a => f a
  | Panic => Panic
  | os_Mkdir name perm k => os_Mkdir name perm (fun r => bind (k r) f)
  | os_OpenFile name flag perm k => os_OpenFile name flag perm (fun r => bind (k r) f)
  | os_RemoveAll name k => os_RemoveAll name (fun r => bind (k r) f)
  | os_Rename o n k => os_Rename o n (fun r => bind (k r) f)
  | os_Stat name k => os_Stat name (fun r => bind (k r) f)
  | log_Info fields msg k => log_Info fields msg (bind k f)
  end.

Declare Scope prog_scope.
Delimit Scope prog_scope with prog.
Notation "x <- m ;; k" := (bind m (fun x => k))
  (at level 100, m at next level, right associativity) : prog_scope.
Local Open Scope prog_scope.

(** ** Configuration and authentication *)

(** Modelled from the spec: the [UserInfo] struct (declared in a file that
    is not among the sources).  The source reads [Subdir], [Read], [Write],
    [Delete] and [List] through pointers ([userInfo.Subdir != nil],
    [userInfo.Read == nil || *userInfo.Read]): each is optional, [None]
    being the nil pointer. *)
Module UserInfo.
Record t := {
  Subdir : option string;
  Read : option bool;
  Write : option bool;
  Delete : option bool;
  List : option bool
}.
End UserInfo.

(** Modelled from the spec: the audit-log toggles [Config.Log]. *)
Module Logging.
Record t := { Create : bool; Read : bool; Update : bool; Delete : bool }.
End Logging.

(** Modelled from the spec: the [Config] struct, with the fields the
    adapters read.  [Users] is a Go map whose values are pointers to
    [UserInfo] (the source compares [d.Config.Users[...]] with nil and reads
    fields through it).  Its entries hold non-nil pointers; indexing it with
    a key that has no entry yields the nil pointer, here [None] of
    [Users !! key]; [len(Users)] is [size Users].  [Config] itself is
    reached through a pointer that the server sets once and never to nil. *)
Module Config.
Record t := {
  Dir : string;
  Users : gmap string UserInfo.t;
  Log : Logging.t
}.
End Config.

(** Modelled from the spec: [AuthInfo], what [AuthFromContext] finds in a
    request context. *)
Record AuthInfo := { Username : string; Authenticated : bool }.

(** [auth.Info] of go-http-auth, what [auth.FromContext] finds. *)
Module auth.
Record Info := { Username : string; Authenticated : bool }.
End auth.

(** A request's [context.Context], as far as the adapters look into it: the
    value [AuthFromContext] and the value [auth.FromContext] would find,
    each possibly absent (nil). *)
Record Context := {
  ctx_AuthInfo : option AuthInfo;
  ctx_auth_Info : option auth.Info
}.

(** Modelled from the spec: [AuthFromContext(ctx)] returns the [*AuthInfo]
    attached to the context, or nil. *)
Definition AuthFromContext (ctx : Context) : option AuthInfo := ctx_AuthInfo ctx.

Definition auth_FromContext (ctx : Context) : option auth.Info := ctx_auth_Info ctx.

(** [*p] for a pointer [p]: a nil pointer panics. *)
Definition deref {A : Type} (p : option A) : Prog A :=
  match p with
  | Some a => Ret a
  | None => Panic
  end.

(** [resolve]'s first test, on the name it is given. *)
Definition unsafe_name (goos : GOOS) (name : string) : bool :=
  (negb (Ascii.eqb (Separator goos) slash) && contains_byte (Separator goos) name)
  || contains_byte NUL name.

(** ** [Dir] *)

Module Dir.
Record t := { Config : Config.t }.

Section Methods.
Variable goos : GOOS.

Definition resolveUser (d : t) (ctx : Context) : string :=
  match AuthFromContext ctx with
  | Some authInfo => if Authenticated authInfo then Username authInfo else ""%string
  | None => ""%string
  end.

Definition resolve (d : t) (ctx : Context) (name : string) : string :=
  if unsafe_name goos name then ""%string
  else
    let dir := Config.Dir (Config d) in
    let dir := if String.eqb dir "" then "."%string else dir in
    let plain :=
      filepath_Join goos
        [dir; filepath_FromSlash goos (path_Clean ("/" +:+ name))] in
    match AuthFromContext ctx with
    | Some authInfo =>
        if Authenticated authInfo then
          match Config.Users (Config d) !! Username authInfo with
          | Some userInfo =>
              match UserInfo.Subdir userInfo with
              | Some subdir =>
                  filepath_Join goos
                    [dir; subdir; filepath_FromSlash goos (path_Clean ("/" +:+ name))]
              | None => plain
              end
          | None => plain
          end
        else plain
    | None => plain
    end.

(** The permission checks (package-level functions of the source).  Once
    the request is authenticated, the looked-up [userInfo] is dereferenced
    for its flag without a nil test. *)
Definition hasRead (ctx : Context) (d : t) : Prog bool :=
  match AuthFromContext ctx with
  | Some authInfo =>
      if Authenticated authInfo then
        userInfo <- deref (Config.Users (Config d) !! Username authInfo) ;;
        Ret (match UserInfo.Read userInfo with None => true | Some b => b end)
      else Ret (size (Config.Users (Config d)) =? 0)
  | None => Ret (size (Config.Users (Config d)) =? 0)
  end.

Definition hasWrite (ctx : Context) (d : t) : Prog bool :=
  match AuthFromContext ctx with
  | Some authInfo =>
      if Authenticated authInfo then
        userInfo <- deref (Config.Users (Config d) !! Username authInfo) ;;
        Ret (match UserInfo.Write userInfo with None => true | Some b => b end)
      else Ret (size (Config.Users (Config d)) =? 0)
  | None => Ret (size (Config.Users (Config d)) =? 0)
  end.

Definition hasDelete (ctx : Context) (d : t) : Prog bool :=
  match AuthFromContext ctx with
  | Some authInfo =>
      if Authenticated authInfo then
        userInfo <- deref (Config.Users (Config d) !! Username authInfo) ;;
        Ret (match UserInfo.Delete userInfo with None => true | Some b => b end)
      else Ret (size (Config.Users (Config d)) =? 0)
  | None => Ret (size (Config.Users (Config d)) =? 0)
  end.

Definition hasList (ctx : Context) (d : t) : Prog bool :=
  match AuthFromContext ctx with
  | Some authInfo =>
      if Authenticated authInfo then
        userInfo <- deref (Config.Users (Config d) !! Username authInfo) ;;
        Ret (match UserInfo.List userInfo with None => true | Some b => b end)
      else Ret (size (Config.Users (Config d)) =? 0)
  | None => Ret (size (Config.Users (Config d)) =? 0)
  end.

(** [if cond { log.WithFields(fields).Info(msg) }] *)
Definition log_if (cond : bool) (fields : list (string * string)) (msg : string) : Prog unit :=
  if cond then log_Info fields msg (Ret tt) else Ret tt.

Definition Mkdir (d : t) (ctx : Context) (name : string) (perm : FileMode) : Prog (option error) :=
  let name := resolve d ctx name in
  if String.eqb name "" then Ret (Some ErrNotExist)
  else
    allowed <- hasWrite ctx d ;;
    if negb allowed then Ret (Some ErrPermission)
    else
      os_Mkdir name perm (fun err =>
        match err with
        | Some e => Ret (Some (SysErr e))
        | None =>
            _ <- log_if (Logging.Create (Config.Log (Config d)))
                   [("path"%string, name); ("user"%string, resolveUser d ctx)]
                   "Created directory" ;;
            Ret None
        end).

Definition OpenFile (d : t) (ctx : Context) (name : string) (flag : Z) (perm : FileMode)
  : Prog (option File * option error) :=
  let name := resolve d ctx name in
  if String.eqb name "" then Ret (None, Some ErrNotExist)
  else
    let open : Prog (option File * option error) :=
      os_OpenFile name flag perm (fun '(f, err) =>
        match err with
        | Some e => Ret (None, Some (SysErr e))
        | None =>
            _ <- log_if (Logging.Read (Config.Log (Config d)))
                   [("path"%string, name); ("user"%string, resolveUser d ctx)]
                   "Opened file" ;;
            Ret (f, None)
        end) in
    let read_gate : Prog (option File * option error) :=
      if (Z.land flag 3 =? 0)%Z || (Z.land flag 3 =? O_RDWR)%Z then
        os_Stat name (fun '(stat, _) =>
          let read_check : Prog (option File * option error) :=
            allowed <- hasRead ctx d ;;
            if negb allowed then Ret (None, Some ErrPermission) else open in
          if is_dir stat then
            allowed <- hasList ctx d ;;
            if negb allowed then Ret (None, Some ErrPermission) else read_check
          else read_check)
      else open in
    if negb (Z.land flag 3 =? 0)%Z then
      allowed <- hasWrite ctx d ;;
      if negb allowed then Ret (None, Some ErrPermission) else read_gate
    else read_gate.

Definition RemoveAll (d : t) (ctx : Context) (name : string) : Prog (option error) :=
  let name := resolve d ctx name in
  if String.eqb name "" then Ret (Some ErrNotExist)
  else if String.eqb name (filepath_Clean goos (Config.Dir (Config d))) then
    (* Prohibit removing the virtual root directory. *)
    Ret (Some ErrInvalid)
  else
    allowed <- hasDelete ctx d ;;
    if negb allowed then Ret (Some ErrPermission)
    else
      os_RemoveAll name (fun err =>
        match err with
        | Some e => Ret (Some (SysErr e))
        | None =>
            _ <- log_if (Logging.Delete (Config.Log (Config d)))
                   [("path"%string, name); ("user"%string, resolveUser d ctx)]
                   "Deleted file or directory" ;;
            Ret None
        end).

Definition Rename (d : t) (ctx : Context) (oldName newName : string) : Prog (option error) :=
  let oldName := resolve d ctx oldName in
  if String.eqb oldName "" then Ret (Some ErrNotExist)
  else
    let newName := resolve d ctx newName in
    if String.eqb newName "" then Ret (Some ErrNotExist)
    else
      allowed <- hasWrite ctx d ;;
      if negb allowed then Ret (Some ErrPermission)
      else
        let root := filepath_Clean goos (Config.Dir (Config d)) in
        if String.eqb root oldName || String.eqb root newName then
          (* Prohibit renaming from or to the virtual root directory. *)
          Ret (Some ErrInvalid)
        else
          os_Rename oldName newName (fun err =>
            match err with
            | Some e => Ret (Some (SysErr e))
            | None =>
                _ <- log_if (Logging.Update (Config.Log (Config d)))
                       [("oldPath"%string, oldName); ("newPath"%string, newName);
                        ("user"%string, resolveUser d ctx)]
                       "Renamed file or directory" ;;
                Ret None
            end).

Definition Stat (d : t) (ctx : Context) (name : string) : Prog (option FileInfo * option error) :=
  let name := resolve d ctx name in
  if String.eqb name "" then Ret (None, Some ErrNotExist)
  else
    allowed <- hasList ctx d ;;
    if negb allowed then Ret (None, Some ErrPermission)
    else os_Stat name (fun '(fi, err) => Ret (fi, SysErr <$> err)).
End Methods.
End Dir.

(** ** [UserDir] (src/app/fs.go) *)

Module UserDir.
Record t := { BaseDir : string }.

Section Methods.
Variable goos : GOOS.

Definition resolve (d : t) (ctx : Context) (name : string) : string :=
  if unsafe_name goos name then ""%string
  else
    let dir := BaseDir d in
    let dir := if String.eqb dir "" then "."%string else dir in
    let plain :=
      filepath_Join goos
        [dir; filepath_FromSlash goos (path_Clean ("/" +:+ name))] in
    match auth_FromContext ctx with
    | None => plain
    | Some authInfo =>
        if negb (auth.Authenticated authInfo) then plain
        else
          filepath_Join goos
            [dir; auth.Username authInfo;
             filepath_FromSlash goos (path_Clean ("/" +:+ name))]
    end.

Definition Mkdir (d : t) (ctx : Context) (name : string) (perm : FileMode) : Prog (option error) :=
  let name := resolve d ctx name in
  if String.eqb name "" then Ret (Some ErrNotExist)
  else os_Mkdir name perm (fun err => Ret (SysErr <$> err)).

Definition OpenFile (d : t) (ctx : Context) (name : string) (flag : Z) (perm : FileMode)
  : Prog (option File * option error) :=
  let name := resolve d ctx name in
  if String.eqb name "" then Ret (None, Some ErrNotExist)
  else
    os_OpenFile name flag perm (fun '(f, err) =>
      match err with
      | Some e => Ret (None, Some (SysErr e))
      | None => Ret (f, None)
      end).

Definition RemoveAll (d : t) (ctx : Context) (name : string) : Prog (option error) :=
  let name := resolve d ctx name in
  if String.eqb name "" then Ret (Some ErrNotExist)
  else if String.eqb name (filepath_Clean goos (BaseDir d)) then
    (* Prohibit removing the virtual root directory. *)
    Ret (Some ErrInvalid)
  else os_RemoveAll name (fun err => Ret (SysErr <$> err)).

Definition Rename (d : t) (ctx : Context) (oldName newName : string) : Prog (option error) :=
  let oldName := resolve d ctx oldName in
  if String.eqb oldName "" then Ret (Some ErrNotExist)
  else
    let newName := resolve d ctx newName in
    if String.eqb newName "" then Ret (Some ErrNotExist)
    else
      let root := filepath_Clean goos (BaseDir d) in
      if String.eqb root oldName || String.eqb root newName then
        (* Prohibit renaming from or to the virtual root directory. *)
        Ret (Some ErrInvalid)
      else os_Rename oldName newName (fun err => Ret (SysErr <$> err)).

Definition Stat (d : t) (ctx : Context) (name : string) : Prog (option FileInfo * option error) :=
  let name := resolve d ctx name in
  if String.eqb name "" then Ret (None, Some ErrNotExist)
  else os_Stat name (fun '(fi, err) => Ret (fi, SysErr <$> err)).
End Methods.
End UserDir.

(** ** Running a program against a host

    [Host W] is a filesystem (and log sink) with states [W]; [run] performs
    a program's calls on it in order and records them. *)

Inductive Syscall :=
| SysMkdir (name : string) (perm : FileMode)
| SysOpenFile (name : string) (flag : Z) (perm : FileMode)
| SysRemoveAll (name : string)
| SysRename (oldpath newpath : string)
| SysStat (name : string)
| SysLog (fields : list (string * string)) (msg : string).

Record Host (W : Type) := {
  sys_Mkdir : string -> FileMode -> W -> option syserr * W;
  sys_OpenFile : string -> Z -> FileMode -> W -> (option File * option syserr) * W;
  sys_RemoveAll : string -> W -> option syserr * W;
  sys_Rename : string -> string -> W -> option syserr * W;
  sys_Stat : string -> W -> (option FileInfo * option syserr) * W;
  sys_Log : list (string * string) -> string -> W -> W
}.

Arguments sys_Mkdir {W} h.
Arguments sys_OpenFile {W} h.
Arguments sys_RemoveAll {W} h.
Arguments sys_Rename {W} h.
Arguments sys_Stat {W} h.
Arguments sys_Log {W} h.

Inductive outcome (A : Type) :=
| Returned (a : A)
| Panicked.

Arguments Returned {A} a.
Arguments Panicked {A}.

Fixpoint run {W A : Type} (h : Host W) (p : Prog A) (w : W)
  : outcome A * W * list Syscall :=
  match p with
  | Ret a => (Returned a, w, [])
  | Panic => (Panicked, w, [])
  | os_Mkdir name perm k =>
      let '(r, w1) := sys_Mkdir h name perm w in
      let '(o, w2, tr) := run h (k r) w1 in
      (o, w2, SysMkdir name perm :: tr)
  | os_OpenFile name flag perm k =>
      let '(r, w1) := sys_OpenFile h name flag perm w in
      let '(o, w2, tr) := run h (k r) w1 in
      (o, w2, SysOpenFile name flag perm :: tr)
  | os_RemoveAll name k =>
      let '(r, w1) := sys_RemoveAll h name w in
      let '(o, w2, tr) := run h (k r) w1 in
      (o, w2, SysRemoveAll name :: tr)
  | os_Rename oldpath newpath k =>
      let '(r, w1) := sys_Rename h oldpath newpath w in
      let '(o, w2, tr) := run h (k r) w1 in
      (o, w2, SysRename oldpath newpath :: tr)
  | os_Stat name k =>
      let '(r, w1) := sys_Stat h name w in
      let '(o, w2, tr) := run h (k r) w1 in
      (o, w2, SysStat name :: tr)
  | log_Info fields msg k =>
      let '(o, w2, tr) := run h k (sys_Log h fields msg w) in
      (o, w2, SysLog fields msg :: tr)
  end.

(** A call of one of the five operations of [Dir], and a sequence of such
    calls served one after the other on the same host (a call that panics
    ends that call only, as under [net/http]). *)
Inductive Request :=
| ReqMkdir (ctx : Context) (name : string) (perm : FileMode)
| ReqOpenFile (ctx : Context) (name : string) (flag : Z) (perm : FileMode)
| ReqRemoveAll (ctx : Context) (name : string)
| ReqRename (ctx : Context) (oldName newName : string)
| ReqStat (ctx : Context) (name : string).

Definition serve (goos : GOOS) (d : Dir.t) (r : Request) : Prog unit :=
  match r with
  | ReqMkdir ctx name perm => _ <- Dir.Mkdir goos d ctx name perm ;; Ret tt
  | ReqOpenFile ctx name flag perm => _ <- Dir.OpenFile goos d ctx name flag perm ;; Ret tt
  | ReqRemoveAll ctx name => _ <- Dir.RemoveAll goos d ctx name ;; Ret tt
  | ReqRename ctx oldName newName => _ <- Dir.Rename goos d ctx oldName newName ;; Ret tt
  | ReqStat ctx name => _ <- Dir.Stat goos d ctx name ;; Ret tt
  end.

Fixpoint serve_all {W : Type} (h : Host W) (goos : GOOS) (d : Dir.t)
         (reqs : list Request) (w : W) : W * list Syscall :=
  match reqs with
  | [] => (w, [])
  | r :: rest =>
      let '(_, w1, tr1) := run h (serve goos d r) w in
      let '(w2, tr2) := serve_all h goos d rest w1 in
      (w2, tr1 ++ tr2)
  end.

(** A small in-memory host for running examples: the world maps each
    existing path to whether it is a directory. *)
Definition O_CREATE : Z := 64.

Definition starts_with (pre s : string) : bool :=
  bool_decide (bytes pre `prefix_of` bytes s).

Definition mem_host : Host (gmap string bool) := {|
  sys_Mkdir name _ w :=
    match w !! name with
    | Some _ => (Some (PathError "mkdir" name 17), w)
    | None => (None, <[name := true]> w)
    end;
  sys_OpenFile name flag _ w :=
    match w !! name with
    | Some _ => ((Some {| fd := 3 |}, None), w)
    | None =>
        if (Z.land flag O_CREATE =? 0)%Z
        then ((None, Some (PathError "open" name 2)), w)
        else ((Some {| fd := 3 |}, None), <[name := false]> w)
    end;
  sys_RemoveAll name w :=
    (None, filter (fun kv => negb (String.eqb kv.1 name || starts_with (name +:+ "/") kv.1)) w);
  sys_Rename oldpath newpath w :=
    match w !! oldpath with
    | Some isdir => (None, <[newpath := isdir]> (delete oldpath w))
    | None => (Some (LinkError "rename" oldpath newpath 2), w)
    end;
  sys_Stat name w :=
    match w !! name with
    | Some isdir =>
        ((Some {| fi_Name := name; fi_Size := 0; fi_ModTime := 0; fi_IsDir := isdir |}, None), w)
    | None => ((None, Some (PathError "stat" name 2)), w)
    end;
  sys_Log _ _ w := w
|}.

(** ** Lexical containment

    The elements of a path are its fields between separators, the empty
    ones and ["."] left out.  [p] lies lexically within [base] when both
    are absolute or both relative, the elements of [base] begin those of
    [p], and none of the elements that follow is [".."] (what
    [filepath.Rel(base, p)] expresses by a result that does not climb). *)

Section Elements.
Variable is_sep : ascii -> bool.

Fixpoint fields (p : list ascii) : list (list ascii) :=
  match p with
  | [] => [[]]
  | c :: p' =>
      if is_sep c then [] :: fields p'
      else
        match fields p' with
        | f :: fs => (c :: f) :: fs
        | [] => [[c]]
        end
  end.

Definition is_name (e : list ascii) : bool :=
  negb (bool_decide (e = [])) && negb (bool_decide (e = [dot])).

Definition elements_of (p : list ascii) : list (list ascii) :=
  filter (fun e => is_name e = true) (fields p).

Definition absolute (p : list ascii) : bool :=
  match p with
  | c :: _ => is_sep c
  | [] => false
  end.
End Elements.

Fixpoint strip_prefix (pre l : list (list ascii)) : option (list (list ascii)) :=
  match pre, l with
  | [], _ => Some l
  | e :: pre', e' :: l' => if bool_decide (e = e') then strip_prefix pre' l' else None
  | _ :: _, [] => None
  end.

Definition elements (goos : GOOS) (p : string) : list (list ascii) :=
  elements_of (IsPathSeparator goos) (bytes p).

Definition IsAbs (goos : GOOS) (p : string) : bool :=
  absolute (IsPathSeparator goos) (bytes p).

Definition lexically_within (goos : GOOS) (base p : string) : bool :=
  Bool.eqb (IsAbs goos base) (IsAbs goos p) &&
  match strip_prefix (elements goos base) (elements goos p) with
  | Some rest => forallb (fun e => negb (bool_decide (e = [dot; dot]))) rest
  | None => false
  end.

(** ** Cleaning, element by element

    What the cleaning loop computes, told on whole path elements: a stack of
    kept elements (the top is the last one written), pushed to by each field
    of the path in turn, and the buffer that stack stands for. *)

Definition dotdot : list ascii := [dot; dot].

Section Stack.
Variable sep : ascii.
Variable is_sep : ascii -> bool.
Variable rooted : bool.

Definition push_element (stack : list (list ascii)) (e : list ascii) : list (list ascii) :=
  if bool_decide (e = []) || bool_decide (e = [dot]) then stack
  else if bool_decide (e = dotdot) then
    match stack with
    | top :: rest =>
        if bool_decide (top = dotdot) then (if rooted then stack else e :: stack)
        else rest
    | [] => if rooted then [] else [e]
    end
  else e :: stack.

Definition push_fields (p : list ascii) (stack : list (list ascii)) : list (list ascii) :=
  fold_left push_element (fields is_sep p) stack.

(** The reversed buffer a stack stands for. *)
Fixpoint rrender (stack : list (list ascii)) : list ascii :=
  match stack with
  | [] => if rooted then [sep] else []
  | e :: rest =>
      rev e ++
      match rest with
      | [] => if rooted then [sep] else []
      | _ :: _ => sep :: rrender rest
      end
  end.

(** The value of [dotdot] that goes with a stack: the end of its leading
    run of [..] elements (or of the leading separator). *)
Definition dotdot_index (stack : list (list ascii)) : nat :=
  length (rrender (filter (fun e => e = dotdot) stack)).

Definition finish (stack : list (list ascii)) : list ascii :=
  if length (rrender stack) =? 0 then [dot] else rev (rrender stack).

(** A kept element that is not [..]: non-empty, not [.], free of separators. *)
Definition plain (e : list ascii) : Prop :=
  e <> [] /\ e <> [dot] /\ e <> dotdot /\ Forall (fun c => is_sep c = false) e.

(** The stacks the loop builds: plain elements on top of a run of [..],
    which is empty for a rooted path. *)
Definition well_formed (stack : list (list ascii)) : Prop :=
  exists (ns : list (list ascii)) (k : nat),
    stack = ns ++ repeat dotdot k /\ Forall plain ns /\ (rooted = true -> k = 0).

(** The buffer read forwards. *)
Fixpoint join (es : list (list ascii)) : list ascii :=
  match es with
  | [] => []
  | e :: rest =>
      e ++ match rest with [] => [] | _ :: _ => sep :: join rest end
  end.

Definition render (es : list (list ascii)) : list ascii :=
  (if rooted then [sep] else []) ++ join es.
End Stack.

(** ** The base a context is confined to *)

(** The authenticated user of a context, if any. *)
Definition authenticated_as (ctx : Context) : option string :=
  match AuthFromContext ctx with
  | Some authInfo => if Authenticated authInfo then Some (Username authInfo) else None
  | None => None
  end.

(** The subdirectory declared for the context's user, if any. *)
Definition declared_subdir (d : Dir.t) (ctx : Context) : option string :=
  match authenticated_as ctx with
  | Some user =>
      match Config.Users (Dir.Config d) !! user with
      | Some userInfo => UserInfo.Subdir userInfo
      | None => None
      end
  | None => None
  end.

(** The configured root, [filepath.Clean(d.Config.Dir)]. *)
Definition root_of (goos : GOOS) (d : Dir.t) : string :=
  filepath_Clean goos (Config.Dir (Dir.Config d)).

(** [dir] as [resolve] computes it. *)
Definition dir_of (d : Dir.t) : string :=
  if String.eqb (Config.Dir (Dir.Config d)) "" then "."%string else Config.Dir (Dir.Config d).

(** The root, or root/subdir where the context's user declares one. *)
Definition base_of (goos : GOOS) (d : Dir.t) (ctx : Context) : string :=
  match declared_subdir d ctx with
  | Some subdir => filepath_Join goos [dir_of d; subdir]
  | None => root_of goos d
  end.

(** ** What a program may do *)

(** [p] returns [a], having called nothing but [os.Stat]. *)
Inductive returns_after_stat {A : Type} (a : A) : Prog A -> Prop :=
| ras_ret : returns_after_stat a (Ret a)
| ras_stat name k :
    (forall r, returns_after_stat a (k r)) ->
    returns_after_stat a (os_Stat name k).

(** The delete or rename that would hit [root]. *)
Definition hits (root : string) (c : Syscall) : bool :=
  match c with
  | SysRemoveAll name => String.eqb name root
  | SysRename oldpath newpath => String.eqb oldpath root || String.eqb newpath root
  | _ => false
  end.

(** Every call [p] can make, whatever the calls before it returned,
    satisfies [ok]. *)
Fixpoint calls_only {A : Type} (ok : Syscall -> Prop) (p : Prog A) : Prop :=
  match p with
  | Ret _ | Panic => True
  | os_Mkdir name perm k => ok (SysMkdir name perm) /\ forall r, calls_only ok (k r)
  | os_OpenFile name flag perm k =>
      ok (SysOpenFile name flag perm) /\ forall r, calls_only ok (k r)
  | os_RemoveAll name k => ok (SysRemoveAll name) /\ forall r, calls_only ok (k r)
  | os_Rename oldpath newpath k =>
      ok (SysRename oldpath newpath) /\ forall r, calls_only ok (k r)
  | os_Stat name k => ok (SysStat name) /\ forall r, calls_only ok (k r)
  | log_Info fields msg k => ok (SysLog fields msg) /\ calls_only ok k
  end.

(** A call that is no delete or rename of the root, be it as configured or
    cleaned. *)
Definition spares_root (goos : GOOS) (d : Dir.t) (c : Syscall) : Prop :=
  hits (root_of goos d) c = false /\ hits (Config.Dir (Dir.Config d)) c = false.

(** ** Notions for the further properties *)

(** The stack of kept elements of a virtual path, as [path.Clean("/"+name)]
    builds it. *)
Definition name_stack (name : string) : list (list ascii) :=
  push_fields is_slash true (slash :: bytes name) [].

(** The bytes [resolve] joins the cleaned name onto: [dir], or [dir],
    separator, [subdir]. *)
Definition base_bytes (goos : GOOS) (d : Dir.t) (ctx : Context) : list ascii :=
  match declared_subdir d ctx with
  | Some subdir => bytes (dir_of d) ++ Separator goos :: bytes subdir
  | None => bytes (dir_of d)
  end.

(** The stack of a base path. *)
Definition base_stack (goos : GOOS) (a : list ascii) : list (list ascii) :=
  push_fields (IsPathSeparator goos) (absolute (IsPathSeparator goos) a) a [].

(** The context a request comes with. *)
Definition request_ctx (r : Request) : Context :=
  match r with
  | ReqMkdir ctx _ _ | ReqOpenFile ctx _ _ _ | ReqRemoveAll ctx _
  | ReqRename ctx _ _ | ReqStat ctx _ => ctx
  end.

(** The paths a call hands to the filesystem. *)
Definition call_paths (c : Syscall) : list string :=
  match c with
  | SysMkdir name _ | SysOpenFile name _ _ | SysRemoveAll name | SysStat name => [name]
  | SysRename oldpath newpath => [oldpath; newpath]
  | SysLog _ _ => []
  end.

Definition is_log (c : Syscall) : bool :=
  match c with
  | SysLog _ _ => true
  | _ => false
  end.

(** The operation a request asks for, reduced to the [error] it returns. *)
Definition respond (goos : GOOS) (d : Dir.t) (r : Request) : Prog (option error) :=
  match r with
  | ReqMkdir ctx name perm => Dir.Mkdir goos d ctx name perm
  | ReqOpenFile ctx name flag perm =>
      res <- Dir.OpenFile goos d ctx name flag perm ;; Ret res.2
  | ReqRemoveAll ctx name => Dir.RemoveAll goos d ctx name
  | ReqRename ctx oldName newName => Dir.Rename goos d ctx oldName newName
  | ReqStat ctx name => res <- Dir.Stat goos d ctx name ;; Ret res.2
  end.

(** The errors the adapter itself raises. *)
Definition is_sentinel (e : error) : bool :=
  match e with
  | SysErr _ => false
  | _ => true
  end.

(** The audit record a request leaves when it succeeds, if its kind is
    logged at all. *)
Definition audit_record (goos : GOOS) (d : Dir.t) (r : Request) : option Syscall :=
  let log := Config.Log (Dir.Config d) in
  match r with
  | ReqMkdir ctx name _ =>
      if Logging.Create log
      then Some (SysLog [("path"%string, Dir.resolve goos d ctx name);
                         ("user"%string, Dir.resolveUser d ctx)] "Created directory")
      else None
  | ReqOpenFile ctx name _ _ =>
      if Logging.Read log
      then Some (SysLog [("path"%string, Dir.resolve goos d ctx name);
                         ("user"%string, Dir.resolveUser d ctx)] "Opened file")
      else None
  | ReqRemoveAll ctx name =>
      if Logging.Delete log
      then Some (SysLog [("path"%string, Dir.resolve goos d ctx name);
                         ("user"%string, Dir.resolveUser d ctx)] "Deleted file or directory")
      else None
  | ReqRename ctx oldName newName =>
      if Logging.Update log
      then Some (SysLog [("oldPath"%string, Dir.resolve goos d ctx oldName);
                         ("newPath"%string, Dir.resolve goos d ctx newName);
                         ("user"%string, Dir.resolveUser d ctx)] "Renamed file or directory")
      else None
  | ReqStat _ _ => None
  end.

(** The authenticated user [auth.FromContext] reports, if any. *)
Definition auth_authenticated_as (ctx : Context) : option string :=
  match auth_FromContext ctx with
  | Some authInfo =>
      if auth.Authenticated authInfo then Some (auth.Username authInfo) else None
  | None => None
  end.

(** [dir] as [UserDir.resolve] computes it. *)
Definition user_dir_of (d : UserDir.t) : string :=
  if String.eqb (UserDir.BaseDir d) "" then "."%string else UserDir.BaseDir d.


(** A call whose paths all lie within the base of a context. *)
Definition within_base (goos : GOOS) (d : Dir.t) (ctx : Context) (c : Syscall) : Prop :=
  forallb (lexically_within goos (base_of goos d ctx)) (call_paths c) = true.

(** The calls that can change the filesystem. *)
Definition is_mutation (c : Syscall) : bool :=
  match c with
  | SysMkdir _ _ | SysOpenFile _ _ _ | SysRemoveAll _ | SysRename _ _ => true
  | SysStat _ | SysLog _ _ => false
  end.

(** The changing call a request asks for, on the resolved path or paths;
    [Stat] asks for none. *)
Definition request_call (goos : GOOS) (d : Dir.t) (r : Request) : option Syscall :=
  match r with
  | ReqMkdir ctx name perm => Some (SysMkdir (Dir.resolve goos d ctx name) perm)
  | ReqOpenFile ctx name flag perm => Some (SysOpenFile (Dir.resolve goos d ctx name) flag perm)
  | ReqRemoveAll ctx name => Some (SysRemoveAll (Dir.resolve goos d ctx name))
  | ReqRename ctx oldName newName =>
      Some (SysRename (Dir.resolve goos d ctx oldName) (Dir.resolve goos d ctx newName))
  | ReqStat _ _ => None
  end.

(** Contexts and configurations for the examples. *)
Definition anonymous : Context := {| ctx_AuthInfo := None; ctx_auth_Info := None |}.

Definition logged_in (user : string) : Context :=
  {| ctx_AuthInfo := Some {| Username := user; Authenticated := true |};
     ctx_auth_Info := Some {| auth.Username := user; auth.Authenticated := true |} |}.

Definition no_logging : Logging.t :=
  {| Logging.Create := false; Logging.Read := false;
     Logging.Update := false; Logging.Delete := false |}.

Definition serving (dir : string) (users : gmap string UserInfo.t) : Dir.t :=
  {| Dir.Config := {| Config.Dir := dir; Config.Users := users; Config.Log := no_logging |} |}.

Definition unrestricted : UserInfo.t :=
  {| UserInfo.Subdir := None; UserInfo.Read := None; UserInfo.Write := None;
     UserInfo.Delete := None; UserInfo.List := None |}.

Definition read_only : UserInfo.t :=
  {| UserInfo.Subdir := None; UserInfo.Read := None; UserInfo.Write := Some false;
     UserInfo.Delete := None; UserInfo.List := None |}.

Definition list_denied : UserInfo.t :=
  {| UserInfo.Subdir := None; UserInfo.Read := None; UserInfo.Write := None;
     UserInfo.Delete := None; UserInfo.List := Some false |}.

Definition alice_policy : UserInfo.t :=
  {| UserInfo.Subdir := Some "alice-home"%string; UserInfo.Read := None;
     UserInfo.Write := Some false; UserInfo.Delete := None; UserInfo.List := None |}.

(** * Examples *)

Example path_Clean_ex1 : path_Clean "/../a/./b//c/.." = "/a/b"%string.
Proof. reflexivity. Qed.
Example path_Clean_ex2 : path_Clean "a/../.." = ".."%string.
Proof. reflexivity. Qed.
Example path_Clean_ex3 : path_Clean "" = "."%string.
Proof. reflexivity. Qed.
Example path_Clean_ex4 : path_Clean "../../abc/../def/" = "../../def"%string.
Proof. reflexivity. Qed.
Example path_Clean_ex5 : path_Clean "abc/./../def" = "def"%string.
Proof. reflexivity. Qed.
Example path_Clean_ex6 : path_Clean "/abc/def/../../.." = "/"%string.
Proof. reflexivity. Qed.
Example path_Clean_ex7 : path_Clean "abc//./../def/..." = "def/..."%string.
Proof. reflexivity. Qed.
Example filepath_Join_ex1 : filepath_Join unix ["/data"; "/a/b.txt"] = "/data/a/b.txt"%string.
Proof. reflexivity. Qed.
Example filepath_Join_ex2 : filepath_Join unix ["a"; ""; "../.."; "x"] = "../x"%string.
Proof. reflexivity. Qed.
Example filepath_Join_ex3 : filepath_Join windows ["C"; "a/b\..\c"] = "C\a\c"%string.
Proof. reflexivity. Qed.
Example within_ex1 : lexically_within unix "/data" "/data/a/b.txt" = true.
Proof. reflexivity. Qed.
Example within_ex2 : lexically_within unix "/data" "/database" = false.
Proof. reflexivity. Qed.
Example within_ex3 : lexically_within unix ".." "../.." = false.
Proof. reflexivity. Qed.
Example within_ex4 : lexically_within unix "." "a/b" = true.
Proof. reflexivity. Qed.
Example within_ex5 : lexically_within unix "/data" "/etc/passwd" = false.
Proof. reflexivity. Qed.
Example within_ex6 : lexically_within windows "C\data" "C\data\x" = true.
Proof. reflexivity. Qed.

(** The scenarios of the specification. *)

Example open_anonymous :
  run mem_host (Dir.OpenFile unix (serving "/data" ∅) anonymous "/a/b.txt" 0%Z 0%Z)
      {[ "/data/a/b.txt"%string := false ]}
  = (Returned (Some {| fd := 3 |}, None), {[ "/data/a/b.txt"%string := false ]},
     [SysStat "/data/a/b.txt"; SysOpenFile "/data/a/b.txt" 0%Z 0%Z]).
Proof. vm_compute. reflexivity. Qed.

Example mkdir_alice :
  Dir.resolve unix (serving "/data" {[ "alice"%string := alice_policy ]})
    (logged_in "alice") "/new" = "/data/alice-home/new"%string /\
  Dir.Mkdir unix (serving "/data" {[ "alice"%string := alice_policy ]})
    (logged_in "alice") "/new" 493%Z = Ret (Some ErrPermission).
Proof. vm_compute. by split. Qed.

Example stat_bob :
  run mem_host (Dir.Stat unix (serving "/data" {[ "bob"%string := unrestricted ]})
                  (logged_in "bob") "/x") {[ "/data/x"%string := false ]}
  = (Returned (Some {| fi_Name := "/data/x"; fi_Size := 0; fi_ModTime := 0; fi_IsDir := false |},
               None),
     {[ "/data/x"%string := false ]}, [SysStat "/data/x"]).
Proof. vm_compute. reflexivity. Qed.

Example remove_root :
  Dir.RemoveAll unix (serving "/data" {[ "admin"%string := unrestricted ]})
    (logged_in "admin") "/" = Ret (Some ErrInvalid).
Proof. vm_compute. reflexivity. Qed.

Example resolve_dotdot :
  Dir.resolve unix (serving "/data" ∅) anonymous "/../../etc/passwd"
  = "/data/etc/passwd"%string.
Proof. vm_compute. reflexivity. Qed.

Example resolve_relative_root :
  Dir.resolve unix (serving "" ∅) anonymous "a/../../b" = "b"%string.
Proof. vm_compute. reflexivity. Qed.

Example resolve_null_byte :
  Dir.resolve unix (serving "/data" ∅) anonymous (String NUL "x") = ""%string.
Proof. vm_compute. reflexivity. Qed.

Example resolve_backslash :
  Dir.resolve windows (serving "C" ∅) anonymous "/a\b" = ""%string /\
  Dir.resolve unix (serving "/data" ∅) anonymous "/a\b" = "/data/a\b"%string.
Proof. vm_compute. by split. Qed.

Example serve_two :
  (serve_all mem_host unix (serving "/data" ∅)
     [ReqMkdir anonymous "/d" 493%Z; ReqRemoveAll anonymous "/"; ReqRename anonymous "/d" "/e"]
     ∅).2
  = [SysMkdir "/data/d" 493%Z; SysRename "/data/d" "/data/e"].
Proof. vm_compute. reflexivity. Qed.

(** * The cleaning loop computes the element stack *)

Section CleanTheory.
Variable sep : ascii.
Variable is_sep : ascii -> bool.
Hypothesis sep_is_sep : is_sep sep = true.
Hypothesis dot_not_sep : is_sep dot = false.

Local Abbreviation nosep := (Forall (fun c => is_sep c = false)).
Local Abbreviation boundary := (Lexical.at_boundary is_sep).
Local Abbreviation pl := (plain is_sep).

Lemma fields_not_nil p : fields is_sep p <> [].
Proof.
  destruct p as [|c p]; simpl; [done|].
  destruct (is_sep c); [done|]. by destruct (fields is_sep p).
Qed.

Lemma fields_nosep e : nosep e -> fields is_sep e = [e].
Proof.
  induction 1 as [|c e Hc _ IH]; simpl; [done|]. by rewrite Hc, IH.
Qed.

Lemma fields_app_sep a s b :
  is_sep s = true -> fields is_sep (a ++ s :: b) = fields is_sep a ++ fields is_sep b.
Proof.
  intros Hs. induction a as [|c a IH]; simpl.
  - by rewrite Hs.
  - destruct (is_sep c); [by rewrite IH|].
    rewrite IH. pose proof (fields_not_nil a) as Hne.
    by destruct (fields is_sep a).
Qed.

(** Every path is its first field followed by nothing or by a separator and
    the rest. *)
Lemma first_field p :
  exists e rest,
    p = e ++ rest /\ nosep e /\ boundary rest = true /\
    fields is_sep p = e :: match rest with [] => [] | _ :: p' => fields is_sep p' end.
Proof.
  induction p as [|c p (e & rest & Hp & He & Hb & Hf)].
  - by exists [], [].
  - destruct (is_sep c) eqn:Hc.
    + exists [], (c :: p). simpl. by rewrite Hc.
    + exists (c :: e), rest. simpl. rewrite Hc, Hf, Hp at 1. repeat split; auto.
Qed.

Lemma field_in_path p e c : e ∈ fields is_sep p -> c ∈ e -> c ∈ p /\ is_sep c = false.
Proof.
  revert e. induction p as [|a p IH]; simpl; intros e He Hc.
  - apply list_elem_of_singleton in He. subst. by apply not_elem_of_nil in Hc.
  - destruct (is_sep a) eqn:Ha.
    + apply elem_of_cons in He as [->|He]; [by apply not_elem_of_nil in Hc|].
      destruct (IH _ He Hc). split; [by right|done].
    + pose proof (fields_not_nil p) as Hne.
      destruct (fields is_sep p) as [|f fs]; [done|].
      apply elem_of_cons in He as [->|He].
      * apply elem_of_cons in Hc as [->|Hc]; [split; [by left|done]|].
        destruct (IH f (list_elem_of_here _ _) Hc). split; [by right|done].
      * destruct (IH e (list_elem_of_further _ _ _ He) Hc). split; [by right|done].
Qed.

Section Rooted.
Variable rooted : bool.

Local Abbreviation loop := (Lexical.clean_loop sep is_sep rooted).
Local Abbreviation add_slash := (Lexical.add_slash sep rooted).
Local Abbreviation rr := (rrender sep rooted).
Local Abbreviation ddi := (dotdot_index sep rooted).
Local Abbreviation push := (push_element rooted).
Local Abbreviation wf := (well_formed is_sep rooted).
Local Abbreviation base := (if rooted then [sep] else []).

Lemma copy_field e rest out dd :
  nosep e -> boundary rest = true ->
  loop true (e ++ rest) out dd =
  match rest with
  | [] => rev e ++ out
  | _ :: p' => loop false p' (rev e ++ out) dd
  end.
Proof.
  intros He Hb. revert out. induction He as [|c e Hc _ IH]; intros out.
  - destruct rest as [|s p']; simpl in *; [done|]. by rewrite Hb.
  - simpl. rewrite Hc, IH. rewrite <- !app_assoc. by destruct rest.
Qed.

Lemma real_element c e rest out dd :
  pl (c :: e) -> boundary rest = true ->
  loop false (c :: e ++ rest) out dd = loop true (e ++ rest) (c :: add_slash out) dd.
Proof.
  intros (_ & Hd & Hdd & Hns) Hb.
  apply Forall_cons in Hns as [Hc He].
  simpl. rewrite Hc.
  destruct (is_dot c) eqn:Hdc.
  - apply Ascii.eqb_eq in Hdc. subst c.
    destruct e as [|c2 e].
    + done.
    + apply Forall_cons in He as [Hc2 He]. simpl. rewrite Hc2. simpl.
      destruct (is_dot c2) eqn:Hdc2; [|done].
      apply Ascii.eqb_eq in Hdc2. subst c2.
      destruct e as [|c3 e]; [done|].
      apply Forall_cons in He as [Hc3 He]. simpl. by rewrite Hc3.
  - simpl. by destruct (e ++ rest).
Qed.

Lemma plain_field e rest out dd :
  pl e -> boundary rest = true ->
  loop false (e ++ rest) out dd =
  match rest with
  | [] => rev e ++ add_slash out
  | _ :: p' => loop false p' (rev e ++ add_slash out) dd
  end.
Proof.
  intros He Hb. destruct e as [|c e]; [by destruct He|].
  rewrite <- app_comm_cons, real_element by done.
  destruct He as (_ & _ & _ & Hns). apply Forall_cons in Hns as [_ Hns].
  rewrite copy_field by done. simpl. rewrite <- !app_assoc. by destruct rest.
Qed.

Lemma backtrack_to_sep cs s t dd :
  nosep cs -> is_sep s = true -> dd <= length t ->
  Lexical.backtrack is_sep dd (cs ++ s :: t) = t.
Proof.
  intros Hcs Hs Hdd. induction Hcs as [|c cs Hc _ IH]; simpl.
  - rewrite Hs. by rewrite andb_false_r.
  - rewrite Hc. rewrite length_app. simpl.
    replace (dd <? length cs + S (length t)) with true by (symmetry; apply Nat.ltb_lt; lia).
    done.
Qed.

Lemma backtrack_to_mark cs t :
  nosep cs -> cs <> [] ->
  Lexical.backtrack is_sep (length t) (cs ++ t) = t.
Proof.
  intros Hcs Hne. induction Hcs as [|c cs Hc Hcs IH]; [done|]. simpl.
  destruct cs as [|c' cs].
  - simpl. by rewrite Nat.ltb_irrefl.
  - rewrite Hc. replace (length t <? length ((c' :: cs) ++ t)) with true.
    + simpl. apply IH. done.
    + symmetry. apply Nat.ltb_lt. rewrite length_app. simpl. lia.
Qed.

Lemma rrender_cons e S :
  rr (e :: S) = rev e ++ match S with [] => base | _ :: _ => sep :: rr S end.
Proof. done. Qed.

Lemma rrender_length_cons e S : e <> [] -> length base < length (rr (e :: S)).
Proof.
  intros He. rewrite rrender_cons, length_app, length_rev.
  assert (0 < length e) by (destruct e; [done|simpl; lia]).
  destruct S; destruct rooted; simpl; lia.
Qed.

Lemma add_slash_rrender e S :
  Forall (fun e => e <> []) S -> rev e ++ add_slash (rr S) = rr (e :: S).
Proof.
  intros HS. rewrite rrender_cons. f_equal. unfold Lexical.add_slash.
  destruct S as [|e' S].
  - by destruct rooted.
  - apply Forall_cons in HS as [He' _].
    pose proof (rrender_length_cons e' S He') as Hlen.
    destruct rooted; cbn [andb orb negb length] in *.
    + destruct (Nat.eqb_spec (length (rrender sep true (e' :: S))) 1); [lia|done].
    + destruct (Nat.eqb_spec (length (rrender sep false (e' :: S))) 0); [lia|done].
Qed.

Lemma plain_not_nil e : pl e -> e <> [].
Proof. by intros []. Qed.

Lemma well_formed_not_nil S : wf S -> Forall (fun e => e <> []) S.
Proof.
  intros (ns & k & -> & Hns & _). apply Forall_app. split.
  - eapply Forall_impl; [done|]. apply plain_not_nil.
  - apply Forall_forall. intros e He. apply list_elem_of_In, repeat_spec in He. by subst.
Qed.

Lemma filter_dotdot ns k :
  Forall pl ns -> filter (fun e => e = dotdot) (ns ++ repeat dotdot k) = repeat dotdot k.
Proof.
  intros Hns. rewrite filter_app.
  replace (filter (fun e => e = dotdot) ns) with (@nil (list ascii)).
  - simpl. induction k as [|k IH]; [done|]. simpl. rewrite filter_cons_True by done. by rewrite IH.
  - symmetry. induction Hns as [|e ns He _ IH]; [done|].
    rewrite filter_cons_False; [done|]. by destruct He as (_ & _ & ? & _).
Qed.

Lemma filter_dotdots k : filter (fun e => e = dotdot) (repeat dotdot k) = repeat dotdot k.
Proof. by apply (filter_dotdot [] k). Qed.

Lemma dotdot_index_plain e S : pl e -> ddi (e :: S) = ddi S.
Proof.
  intros (_ & _ & He & _). unfold dotdot_index. by rewrite filter_cons_False.
Qed.

Lemma dotdot_index_dotdots k : ddi (repeat dotdot k) = length (rr (repeat dotdot k)).
Proof. unfold dotdot_index. by rewrite <- (filter_dotdot [] k) at 2. Qed.

Lemma dotdot_index_le S : wf S -> ddi S <= length (rr S).
Proof.
  intros (ns & k & -> & Hns & Hk). unfold dotdot_index. rewrite filter_dotdot by done.
  clear Hk. induction Hns as [|e ns He Hns IH]; [done|].
  etrans; [exact IH|]. simpl app. rewrite (rrender_cons e), length_app.
  destruct (ns ++ repeat dotdot k); simpl; [|lia].
  destruct rooted; simpl; lia.
Qed.

Lemma well_formed_nil : wf [].
Proof. exists [], 0. by split_and!. Qed.

Lemma well_formed_plain e S : pl e -> wf S -> wf (e :: S).
Proof.
  intros He (ns & k & -> & Hns & Hk). exists (e :: ns), k. split_and!; [done| |done].
  by constructor.
Qed.

Lemma push_dotdot_nil : push [] dotdot = if rooted then [] else [dotdot].
Proof. done. Qed.

Lemma push_dotdot_dotdot S :
  push (dotdot :: S) dotdot = if rooted then dotdot :: S else dotdot :: dotdot :: S.
Proof. done. Qed.

Lemma push_dotdot_plain n S : n <> dotdot -> push (n :: S) dotdot = S.
Proof.
  intros Hn. unfold push_element. cbn [bool_decide orb].
  rewrite !bool_decide_eq_false_2 by done. rewrite bool_decide_eq_true_2 by done.
  cbn [orb]. by rewrite bool_decide_eq_false_2.
Qed.

Lemma push_plain e S : pl e -> push S e = e :: S.
Proof.
  intros (H1 & H2 & H3 & _). unfold push_element.
  by rewrite !bool_decide_eq_false_2.
Qed.

Lemma push_skip e S : e = [] \/ e = [dot] -> push S e = S.
Proof. by intros [-> | ->]. Qed.

(** The [..] element on a well-formed buffer is [push_element] of [..]. *)
Lemma dotdot_on_stack S :
  wf S ->
  Lexical.dotdot_element sep is_sep rooted (rr S) (ddi S)
  = (rr (push S dotdot), ddi (push S dotdot)) /\ wf (push S dotdot).
Proof.
  intros HS. pose proof HS as (ns & k & -> & Hns & Hk).
  unfold Lexical.dotdot_element.
  destruct ns as [|n ns].
  - (* nothing to backtrack over *)
    simpl app. rewrite dotdot_index_dotdots, Nat.ltb_irrefl.
    destruct k as [|k].
    + simpl repeat. rewrite push_dotdot_nil. destruct rooted; simpl.
      * split; [done|]. exists [], 0. by split_and!.
      * split; [done|]. exists [], 1. by split_and!.
    + simpl repeat. rewrite push_dotdot_dotdot.
      assert (0 < length (rr (dotdot :: repeat dotdot k))) as Hpos.
      { rewrite rrender_cons, length_app. simpl. lia. }
      apply Nat.ltb_lt in Hpos. rewrite Hpos.
      destruct rooted; [by specialize (Hk eq_refl)|]. cbn [negb]. split.
      * f_equal. change (dotdot :: dotdot :: repeat dotdot k) with (repeat dotdot (S (S k))).
        unfold dotdot_index. by rewrite filter_dotdots.
      * exists [], (S (S k)). by split_and!.
  - (* the top element is plain: drop it *)
    apply Forall_cons in Hns as [Hn Hns].
    assert (wf (ns ++ repeat dotdot k)) as HS' by (exists ns, k; by split_and!).
    simpl app. rewrite dotdot_index_plain by done.
    pose proof (dotdot_index_le _ HS') as Hle.
    pose proof (rrender_length_cons n (ns ++ repeat dotdot k) (plain_not_nil _ Hn)) as Hlen.
    destruct Hn as (Hn1 & _ & Hn3 & Hn4).
    rewrite push_dotdot_plain by done.
    split; [|done].
    assert (Lexical.backtrack is_sep (ddi (ns ++ repeat dotdot k)) (rr (n :: ns ++ repeat dotdot k))
            = rr (ns ++ repeat dotdot k)) as Hbt.
    { rewrite rrender_cons.
      assert (nosep (rev n)) as Hrev.
      { apply Forall_forall. intros c Hc. rewrite Forall_forall in Hn4. apply Hn4.
        apply list_elem_of_In. apply in_rev. by apply list_elem_of_In. }
      destruct (ns ++ repeat dotdot k) as [|e S] eqn:HeqS.
      - assert (ddi [] = length base) as -> by (unfold dotdot_index; simpl; by destruct rooted).
        apply backtrack_to_mark; [done|]. intros Hnil. apply Hn1.
        by rewrite <- (rev_involutive n), Hnil.
      - by apply backtrack_to_sep. }
    rewrite Hbt.
    replace (ddi (ns ++ repeat dotdot k) <? length (rr (n :: ns ++ repeat dotdot k)))
      with true; [done|].
    symmetry. apply Nat.ltb_lt.
    rewrite rrender_cons, length_app, length_rev in *.
    assert (0 < length n) by (destruct n; [done|simpl; lia]).
    destruct (ns ++ repeat dotdot k) eqn:HeqS; simpl in *; [|lia].
    unfold dotdot_index in *. simpl in *. destruct rooted; simpl in *; lia.
Qed.

Lemma boundary_skip rest out dd :
  boundary rest = true ->
  loop false rest out dd =
  match rest with [] => out | _ :: p' => loop false p' out dd end.
Proof. destruct rest as [|c p']; simpl; [done|]. by intros ->. Qed.

(** One field of the path, read by the loop, is one [push_element]. *)
Lemma field_step e rest S :
  wf S -> nosep e -> boundary rest = true ->
  loop false (e ++ rest) (rr S) (ddi S)
  = match rest with
    | [] => rr (push S e)
    | _ :: p' => loop false p' (rr (push S e)) (ddi (push S e))
    end
  /\ wf (push S e).
Proof.
  intros HS He Hb.
  destruct (decide (e = [])) as [->|Hnil].
  { rewrite push_skip by auto. split; [|done]. by apply boundary_skip. }
  destruct (decide (e = [dot])) as [->|Hdot].
  { rewrite push_skip by auto. split; [|done].
    simpl. rewrite dot_not_sep, Hb. simpl. by apply boundary_skip. }
  destruct (decide (e = dotdot)) as [->|Hdd].
  { destruct (dotdot_on_stack S HS) as [Hd Hwf]. split; [|done].
    simpl. rewrite dot_not_sep, Hb. simpl. rewrite Hd. by apply boundary_skip. }
  assert (pl e) as Hpl by done.
  rewrite push_plain by done. split; [|by apply well_formed_plain].
  rewrite plain_field by done.
  rewrite add_slash_rrender by (by apply well_formed_not_nil).
  by rewrite dotdot_index_plain.
Qed.

(** The loop, started on the buffer of a well-formed stack, ends on the
    buffer of the stack with the fields of the path pushed. *)
Lemma clean_loop_fields p S :
  wf S ->
  loop false p (rr S) (ddi S) = rr (push_fields is_sep rooted p S)
  /\ wf (push_fields is_sep rooted p S).
Proof.
  remember (length p) as n eqn:Hn. revert p S Hn.
  induction n as [n IH] using lt_wf_ind. intros p S -> HS.
  destruct (first_field p) as (e & rest & -> & He & Hb & Hf).
  unfold push_fields. rewrite Hf. simpl fold_left.
  destruct (field_step e rest S HS He Hb) as [Hstep Hwf].
  rewrite Hstep. destruct rest as [|c p']; [done|].
  apply (IH (length p')); [|done|done].
  rewrite length_app. simpl. lia.
Qed.

Lemma join_snoc es e : es <> [] -> join sep (es ++ [e]) = join sep es ++ sep :: e.
Proof.
  induction es as [|e1 es IH]; [done|]. intros _.
  destruct es as [|e2 es].
  - simpl. by rewrite !app_nil_r.
  - change (join sep ((e1 :: e2 :: es) ++ [e]))
      with (e1 ++ sep :: join sep ((e2 :: es) ++ [e])).
    rewrite IH by done.
    change (join sep (e1 :: e2 :: es)) with (e1 ++ sep :: join sep (e2 :: es)).
    by rewrite <- app_assoc.
Qed.

Lemma rev_rrender S : rev (rr S) = render sep rooted (rev S).
Proof.
  unfold render. induction S as [|e S IH].
  - simpl. rewrite app_nil_r. by destruct rooted.
  - rewrite rrender_cons, rev_app_distr, rev_involutive.
    destruct S as [|e' S].
    + change (join sep (rev [e])) with (e ++ []). rewrite app_nil_r. by destruct rooted.
    + change (rev (sep :: rr (e' :: S))) with (rev (rr (e' :: S)) ++ [sep]).
      rewrite IH. change (rev (e :: e' :: S)) with (rev (e' :: S) ++ [e]).
      rewrite join_snoc.
      * by rewrite <- !app_assoc.
      * simpl. by destruct (rev S).
Qed.

Lemma fields_join es :
  Forall nosep es -> es <> [] -> fields is_sep (join sep es) = es.
Proof.
  induction 1 as [|e es He Hes IH]; [done|]. intros _.
  destruct es as [|e' es].
  - simpl. rewrite app_nil_r. by apply fields_nosep.
  - change (join sep (e :: e' :: es)) with (e ++ sep :: join sep (e' :: es)).
    rewrite fields_app_sep by done. rewrite IH by done. by rewrite fields_nosep.
Qed.

Lemma well_formed_elements S e :
  wf S -> e ∈ S -> nosep e /\ is_name e = true /\ (e = dotdot \/ pl e).
Proof.
  intros (ns & k & -> & Hns & _) He. apply elem_of_app in He as [He|He].
  - rewrite Forall_forall in Hns. pose proof (Hns _ He) as Hpl.
    destruct Hpl as (H1 & H2 & H3 & H4). split_and!; [done| |by right].
    unfold is_name. by rewrite !bool_decide_eq_false_2.
  - apply list_elem_of_In, repeat_spec in He. subst. split_and!; [|done|by left].
    by repeat constructor.
Qed.

Lemma finish_nil : finish sep rooted [] = if rooted then [sep] else [dot].
Proof. unfold finish. by destruct rooted. Qed.

Lemma finish_cons e S : e <> [] -> finish sep rooted (e :: S) = render sep rooted (rev (e :: S)).
Proof.
  intros He. unfold finish. pose proof (rrender_length_cons e S He) as Hlen.
  destruct (Nat.eqb_spec (length (rr (e :: S))) 0); [lia|]. apply rev_rrender.
Qed.

Lemma finish_not_nil S : finish sep rooted S <> [].
Proof.
  unfold finish. destruct (Nat.eqb_spec (length (rr S)) 0) as [|Hne]; [done|].
  intros Hnil. apply Hne. by rewrite <- length_rev, Hnil.
Qed.

(** The elements of a cleaned path are the stack, bottom first; it is
    absolute exactly when the path read was. *)
Lemma finish_elements S :
  wf S ->
  elements_of is_sep (finish sep rooted S) = rev S /\
  absolute is_sep (finish sep rooted S) = rooted.
Proof.
  intros HS. destruct S as [|e S].
  - rewrite finish_nil. unfold elements_of. destruct rooted; simpl.
    + rewrite sep_is_sep. by rewrite !filter_cons_False, filter_nil by done.
    + rewrite dot_not_sep. by rewrite filter_cons_False, filter_nil by done.
  - assert (Forall nosep (rev (e :: S)) /\ Forall (fun e => is_name e = true) (rev (e :: S)))
      as [Hns Hnames].
    { split; apply Forall_forall; intros x Hx; apply list_elem_of_In, in_rev, list_elem_of_In in Hx;
        by destruct (well_formed_elements _ _ HS Hx) as (? & ? & _). }
    assert (rev (e :: S) <> []) as Hne by (simpl; by destruct (rev S)).
    assert (e <> []) as He.
    { pose proof (well_formed_not_nil _ HS) as H. by apply Forall_cons in H as [? _]. }
    rewrite finish_cons by done. unfold render, elements_of.
    destruct (rev (e :: S)) as [|e0 es] eqn:Hrev; [done|].
    pose proof (fields_join _ Hns Hne) as Hf.
    assert (e0 <> [] /\ nosep e0) as [He0 Hns0].
    { apply Forall_cons in Hns as [? _]. apply Forall_cons in Hnames as [Hn _].
      split; [|done]. intros ->. done. }
    destruct rooted.
    + cbn [app]. cbn [fields absolute]. rewrite sep_is_sep, Hf.
      split; [|done]. rewrite filter_cons_False by done.
      clear -Hnames. induction Hnames as [|x l Hx _ IH]; [done|].
      by rewrite filter_cons_True, IH.
    + cbn [app]. rewrite Hf. split.
      * clear -Hnames. induction Hnames as [|x l Hx _ IH]; [done|].
        by rewrite filter_cons_True, IH.
      * destruct e0 as [|c e0]; [done|]. apply Forall_cons in Hns0 as [Hc _].
        simpl. done.
Qed.

(** Every byte of a cleaned path is a separator written by the loop, the
    dot of an empty result, or a byte of a kept element. *)
Lemma finish_bytes S c :
  c ∈ finish sep rooted S -> c = sep \/ c = dot \/ exists e, e ∈ S /\ c ∈ e.
Proof.
  unfold finish. destruct (length (rr S) =? 0).
  { intros Hc. apply list_elem_of_singleton in Hc. auto. }
  intros Hc. apply list_elem_of_In, in_rev, list_elem_of_In in Hc.
  induction S as [|e S IH].
  - simpl in Hc. destruct rooted; [|by apply elem_of_nil in Hc].
    apply list_elem_of_singleton in Hc. auto.
  - rewrite rrender_cons in Hc. apply elem_of_app in Hc as [Hc|Hc].
    + right; right. exists e. split; [by left|].
      by apply list_elem_of_In, in_rev, list_elem_of_In.
    + destruct S as [|e' S].
      * destruct rooted; [|by apply elem_of_nil in Hc].
        apply list_elem_of_singleton in Hc. auto.
      * apply elem_of_cons in Hc as [->|Hc]; [auto|].
        destruct (IH Hc) as [?|[?|(x & Hx & Hcx)]]; [auto|auto|].
        right; right. exists x. split; [by right|done].
Qed.

Lemma push_fields_app a s b S :
  is_sep s = true ->
  push_fields is_sep rooted (a ++ s :: b) S
  = push_fields is_sep rooted b (push_fields is_sep rooted a S).
Proof. intros Hs. unfold push_fields. by rewrite fields_app_sep, fold_left_app. Qed.

Lemma push_plain_fields es S :
  Forall pl es -> fold_left push es S = rev es ++ S.
Proof.
  intros Hes. revert S. induction Hes as [|e es He _ IH]; intros S; [done|].
  simpl. rewrite IH, push_plain by done. by rewrite <- app_assoc.
Qed.

Lemma push_fields_from es S e :
  e ∈ fold_left push es S -> e ∈ es \/ e ∈ S.
Proof.
  revert S. induction es as [|x es IH]; intros S He; [auto|].
  simpl in He. apply IH in He as [He|He]; [left; by right|].
  unfold push_element in He.
  destruct (bool_decide (x = []) || bool_decide (x = [dot])); [auto|].
  destruct (bool_decide (x = dotdot)).
  - destruct S as [|top rest].
    + destruct rooted; [auto|]. apply list_elem_of_singleton in He. subst. left. by left.
    + destruct (bool_decide (top = dotdot)).
      * destruct rooted; [auto|]. apply elem_of_cons in He as [->|He]; [left; by left|auto].
      * right. by right.
  - apply elem_of_cons in He as [->|He]; [left; by left|auto].
Qed.
End Rooted.

Lemma push_dotdots k j :
  fold_left (push_element false) (repeat dotdot k) (repeat dotdot j) = repeat dotdot (k + j).
Proof.
  revert j. induction k as [|k IH]; intros j; [done|].
  simpl. replace (push_element false (repeat dotdot j) dotdot) with (repeat dotdot (S j)).
  - rewrite IH. by replace (k + S j) with (S (k + j)) by lia.
  - by destruct j.
Qed.

(** Reading a cleaned path again rebuilds the stack it was written from. *)
Lemma reread rooted S :
  well_formed is_sep rooted S ->
  push_fields is_sep rooted (finish sep rooted S) [] = S.
Proof.
  intros HS. destruct S as [|e S].
  - rewrite finish_nil. unfold push_fields. destruct rooted; simpl.
    + by rewrite sep_is_sep.
    + by rewrite dot_not_sep.
  - assert (e <> []) as He.
    { pose proof (well_formed_not_nil _ _ HS) as H. by apply Forall_cons in H as [? _]. }
    rewrite finish_cons by done.
    assert (Forall nosep (rev (e :: S))) as Hns.
    { apply Forall_forall; intros x Hx; apply list_elem_of_In, in_rev, list_elem_of_In in Hx.
      by destruct (well_formed_elements _ _ _ HS Hx) as (? & _). }
    assert (rev (e :: S) <> []) as Hne by (simpl; by destruct (rev S)).
    assert (fold_left (push_element rooted) (rev (e :: S)) [] = e :: S) as Hfold.
    { destruct HS as (ns & k & -> & Hpl & Hk).
      rewrite rev_app_distr, fold_left_app.
      assert (rev (repeat dotdot k) = repeat dotdot k) as ->.
      { clear. induction k as [|k IH]; [done|]. simpl. rewrite IH.
        clear. induction k as [|k IH]; [done|]. simpl. by rewrite IH. }
      assert (fold_left (push_element rooted) (repeat dotdot k) [] = repeat dotdot k) as ->.
      { destruct rooted; [by rewrite Hk|].
        pose proof (push_dotdots k 0) as Hd. simpl in Hd. rewrite Hd. f_equal. lia. }
      rewrite push_plain_fields, rev_involutive; [done|].
      apply Forall_forall. intros x Hx. apply list_elem_of_In, in_rev, list_elem_of_In in Hx.
      rewrite Forall_forall in Hpl. by apply Hpl. }
    unfold push_fields, render. destruct rooted.
    + cbn [app fields]. rewrite sep_is_sep, fields_join by done. done.
    + cbn [app]. by rewrite fields_join.
Qed.

Lemma absolute_app a b : a <> [] -> absolute is_sep (a ++ b) = absolute is_sep a.
Proof. by destruct a. Qed.

(** [clean_bytes] is the element stack of the path's fields, written out. *)
Lemma clean_bytes_spec p :
  Lexical.clean_bytes sep is_sep p
  = finish sep (absolute is_sep p) (push_fields is_sep (absolute is_sep p) p [])
  /\ well_formed is_sep (absolute is_sep p) (push_fields is_sep (absolute is_sep p) p []).
Proof.
  destruct p as [|c p].
  - split; [done|]. apply well_formed_nil.
  - unfold Lexical.clean_bytes, finish. cbn [absolute].
    destruct (is_sep c) eqn:Hc.
    + destruct (clean_loop_fields true p [] (well_formed_nil _)) as [Hl Hwf].
      change (rrender sep true []) with [sep] in Hl.
      change (dotdot_index sep true []) with 1 in Hl.
      assert (push_fields is_sep true (c :: p) [] = push_fields is_sep true p []) as ->.
      { unfold push_fields. simpl. by rewrite Hc. }
      by rewrite Hl.
    + destruct (clean_loop_fields false (c :: p) [] (well_formed_nil _)) as [Hl Hwf].
      change (rrender sep false []) with (@nil ascii) in Hl.
      change (dotdot_index sep false []) with 0 in Hl.
      by rewrite Hl.
Qed.

Lemma clean_bytes_not_nil p : Lexical.clean_bytes sep is_sep p <> [].
Proof. rewrite (proj1 (clean_bytes_spec p)). apply finish_not_nil. Qed.

Lemma clean_bytes_absolute p :
  absolute is_sep (Lexical.clean_bytes sep is_sep p) = absolute is_sep p.
Proof.
  destruct (clean_bytes_spec p) as [-> Hwf]. by apply finish_elements.
Qed.

(** Cleaning [a/x] is cleaning [Clean(a)/x]. *)
Lemma clean_bytes_prefix a x :
  a <> [] ->
  Lexical.clean_bytes sep is_sep (Lexical.clean_bytes sep is_sep a ++ sep :: x)
  = Lexical.clean_bytes sep is_sep (a ++ sep :: x).
Proof.
  intros Ha.
  rewrite (proj1 (clean_bytes_spec (a ++ sep :: x))).
  rewrite (proj1 (clean_bytes_spec (_ ++ sep :: x))).
  rewrite !absolute_app by (done || apply clean_bytes_not_nil).
  rewrite clean_bytes_absolute.
  rewrite !push_fields_app by done. do 2 f_equal.
  destruct (clean_bytes_spec a) as [-> Hwf]. by apply reread.
Qed.

Lemma clean_bytes_idempotent p :
  Lexical.clean_bytes sep is_sep (Lexical.clean_bytes sep is_sep p)
  = Lexical.clean_bytes sep is_sep p.
Proof.
  rewrite (proj1 (clean_bytes_spec (Lexical.clean_bytes sep is_sep p))).
  rewrite clean_bytes_absolute.
  destruct (clean_bytes_spec p) as [Hp Hwf].
  rewrite Hp at 1. by rewrite reread.
Qed.

(** Cleaning [a] followed by separators and plain elements keeps the stack
    of [a] and puts the elements on top. *)
Lemma clean_bytes_under a es :
  a <> [] -> Forall pl es ->
  let r := absolute is_sep a in
  let S := push_fields is_sep r a [] in
  Lexical.clean_bytes sep is_sep (a ++ sep :: sep :: join sep es) = finish sep r (rev es ++ S)
  /\ well_formed is_sep r (rev es ++ S).
Proof.
  intros Ha Hes r S.
  destruct (clean_bytes_spec (a ++ sep :: sep :: join sep es)) as [Hc Hwf].
  rewrite absolute_app in Hc, Hwf by done.
  rewrite push_fields_app in Hc, Hwf by done.
  assert (push_fields is_sep r (sep :: join sep es) S = rev es ++ S) as Heq.
  { unfold push_fields. cbn [fields]. rewrite sep_is_sep.
    destruct es as [|e es]; [done|].
    rewrite fields_join.
    - change (fold_left (push_element r) ([] :: e :: es) S)
        with (fold_left (push_element r) (e :: es) (push_element r S [])).
      rewrite (push_skip r [] S) by (by left). by apply push_plain_fields.
    - eapply Forall_impl; [exact Hes|]. by intros x (_ & _ & _ & ?).
    - done. }
  fold r in Hc, Hwf. fold S in Hc, Hwf. by rewrite Heq in Hc, Hwf.
Qed.

Lemma strip_prefix_app l r : strip_prefix l (l ++ r) = Some r.
Proof. induction l as [|e l IH]; [done|]. simpl. by rewrite bool_decide_eq_true_2. Qed.

(** So the result lies within [Clean(a)]. *)
Lemma clean_bytes_within a es :
  a <> [] -> Forall pl es ->
  let base := Lexical.clean_bytes sep is_sep a in
  let p := Lexical.clean_bytes sep is_sep (a ++ sep :: sep :: join sep es) in
  absolute is_sep p = absolute is_sep base /\
  strip_prefix (elements_of is_sep base) (elements_of is_sep p) = Some es.
Proof.
  intros Ha Hes base p.
  destruct (clean_bytes_under a es Ha Hes) as [Hp Hwf].
  destruct (clean_bytes_spec a) as [Hb Hwfb].
  subst base p. rewrite Hp, Hb.
  destruct (finish_elements _ _ Hwf) as [-> ->].
  destruct (finish_elements _ _ Hwfb) as [-> ->].
  split; [done|]. by rewrite rev_app_distr, rev_involutive, strip_prefix_app.
Qed.
End CleanTheory.

(** ** Strings and their bytes *)

Lemma bytes_str l : bytes (str l) = l.
Proof. apply list_ascii_of_string_of_list_ascii. Qed.

Lemma str_bytes s : str (bytes s) = s.
Proof. apply string_of_list_ascii_of_string. Qed.

Lemma bytes_app s t : bytes (s +:+ t) = bytes s ++ bytes t.
Proof. induction s as [|c s IH]; [done|]. simpl. by rewrite <- IH. Qed.

Lemma bytes_inj s t : bytes s = bytes t -> s = t.
Proof. intros H. by rewrite <- (str_bytes s), H, str_bytes. Qed.

Lemma bytes_nil s : bytes s = [] <-> s = ""%string.
Proof. split; [|by intros ->]. intros H. by apply bytes_inj. Qed.

Lemma contains_byte_false c s :
  contains_byte c s = false <-> forall x, x ∈ bytes s -> x <> c.
Proof.
  unfold contains_byte. split.
  - intros H x Hx ->. 
    assert (existsb (Ascii.eqb c) (bytes s) = true) as Ht; [|congruence].
    apply existsb_exists. exists c. split; [by apply list_elem_of_In|apply Ascii.eqb_refl].
  - intros H. apply not_true_is_false. intros Ht.
    apply existsb_exists in Ht as (x & Hx & Hc). apply Ascii.eqb_eq in Hc. subst.
    by apply (H x); [apply list_elem_of_In|].
Qed.

(** ** The two instances of the loop *)

Lemma slash_is_sep : is_slash slash = true.
Proof. done. Qed.
Lemma dot_not_slash : is_slash dot = false.
Proof. done. Qed.
Lemma Separator_is_sep goos : IsPathSeparator goos (Separator goos) = true.
Proof. by destruct goos. Qed.
Lemma dot_not_Separator goos : IsPathSeparator goos dot = false.
Proof. by destruct goos. Qed.

Lemma IsPathSeparator_spec goos c :
  IsPathSeparator goos c = true <-> c = slash \/ c = Separator goos.
Proof.
  destruct goos; simpl; unfold is_slash.
  - rewrite Ascii.eqb_eq. tauto.
  - rewrite orb_true_iff, !Ascii.eqb_eq. tauto.
Qed.

(** [filepath.Clean] writes no slash on Windows, so its closing
    [FromSlash] changes nothing. *)
Lemma filepath_Clean_bytes goos p :
  bytes (filepath_Clean goos p)
  = Lexical.clean_bytes (Separator goos) (IsPathSeparator goos) (bytes p).
Proof.
  unfold filepath_Clean, filepath_FromSlash. destruct goos; [by rewrite bytes_str|].
  rewrite !bytes_str.
  destruct (clean_bytes_spec (Separator windows) (IsPathSeparator windows)
              (Separator_is_sep windows) (dot_not_Separator windows) (bytes p)) as [-> Hwf].
  set (S := push_fields _ _ _ _) in *. set (r := absolute _ _) in *.
  assert (forall c, c ∈ finish (Separator windows) r S -> is_slash c = false) as Hno.
  { intros c Hc. apply finish_bytes in Hc as [->|[->|(e & He & Hc)]]; [done|done|].
    destruct (well_formed_elements _ (dot_not_Separator windows) _ _ _ Hwf He) as (Hns & _).
    rewrite Forall_forall in Hns. specialize (Hns _ Hc). simpl in Hns.
    by apply orb_false_iff in Hns as [_ ?]. }
  induction (finish (Separator windows) r S) as [|c l IH]; [done|].
  simpl. rewrite (Hno c) by by left. f_equal. apply IH. intros x Hx. apply Hno. by right.
Qed.

Lemma filepath_Clean_not_empty goos p : filepath_Clean goos p <> ""%string.
Proof.
  intros H. apply bytes_nil in H. rewrite filepath_Clean_bytes in H.
  by apply (clean_bytes_not_nil _ _ (Separator_is_sep goos) (dot_not_Separator goos)) in H.
Qed.

Lemma filepath_Clean_idempotent goos p :
  filepath_Clean goos (filepath_Clean goos p) = filepath_Clean goos p.
Proof.
  apply bytes_inj. rewrite !filepath_Clean_bytes.
  apply (clean_bytes_idempotent _ _ (Separator_is_sep goos) (dot_not_Separator goos)).
Qed.

Lemma filepath_Join_two goos dir x :
  dir <> ""%string ->
  bytes (filepath_Join goos [dir; x])
  = Lexical.clean_bytes (Separator goos) (IsPathSeparator goos)
      (bytes dir ++ Separator goos :: bytes x).
Proof.
  intros Hd. apply String.eqb_neq in Hd. cbn [filepath_Join strings_Join]. rewrite Hd.
  by rewrite filepath_Clean_bytes, !bytes_app.
Qed.

Lemma filepath_Join_three goos dir sub x :
  dir <> ""%string ->
  bytes (filepath_Join goos [dir; sub; x])
  = Lexical.clean_bytes (Separator goos) (IsPathSeparator goos)
      ((bytes dir ++ Separator goos :: bytes sub) ++ Separator goos :: bytes x).
Proof.
  intros Hd. apply String.eqb_neq in Hd. cbn [filepath_Join strings_Join]. rewrite Hd.
  rewrite filepath_Clean_bytes, !bytes_app. by rewrite <- !app_assoc.
Qed.

Lemma filepath_Join_not_empty goos dir rest :
  dir <> ""%string -> filepath_Join goos (dir :: rest) <> ""%string.
Proof.
  intros Hd. apply String.eqb_neq in Hd. simpl. rewrite Hd.
  apply filepath_Clean_not_empty.
Qed.

(** Joining onto [Join(dir, sub)] is joining all three. *)
Lemma filepath_Join_nested goos dir sub x :
  dir <> ""%string ->
  filepath_Join goos [filepath_Join goos [dir; sub]; x] = filepath_Join goos [dir; sub; x].
Proof.
  intros Hd. apply bytes_inj.
  rewrite filepath_Join_two by by apply filepath_Join_not_empty.
  rewrite filepath_Join_two, filepath_Join_three by done.
  apply (clean_bytes_prefix _ _ (Separator_is_sep goos) (dot_not_Separator goos)).
  intros H. apply app_eq_nil in H as [H _]. by apply bytes_nil in H.
Qed.

Lemma filepath_Join_one goos dir :
  filepath_Join goos [if String.eqb dir "" then "."%string else dir] = filepath_Clean goos dir.
Proof.
  destruct (String.eqb_spec dir "") as [->|Hd]; [by destruct goos|].
  simpl. apply String.eqb_neq in Hd. by rewrite Hd.
Qed.

(** ** The cleaned virtual path *)

Lemma map_join (f : ascii -> ascii) sep es :
  Forall (Forall (fun c => f c = c)) es ->
  map f (join sep es) = join (f sep) es.
Proof.
  induction 1 as [|e es He Hes IH]; [done|].
  assert (map f e = e) as Hmap.
  { clear -He. induction He as [|c e Hc _ IH]; [done|]. simpl. by rewrite Hc, IH. }
  destruct es as [|e' es].
  - simpl. by rewrite !app_nil_r.
  - change (join sep (e :: e' :: es)) with (e ++ sep :: join sep (e' :: es)).
    change (join (f sep) (e :: e' :: es)) with (e ++ f sep :: join (f sep) (e' :: es)).
    rewrite map_app, map_cons. by rewrite Hmap, IH.
Qed.

Lemma unsafe_name_false goos name :
  unsafe_name goos name = false ->
  forall c, c ∈ bytes name -> c <> NUL /\ (c = Separator goos -> c = slash).
Proof.
  unfold unsafe_name. intros H c Hc. apply orb_false_iff in H as [Hsep Hnul].
  split.
  - by apply (proj1 (contains_byte_false NUL name) Hnul).
  - intros ->. destruct goos; [done|]. simpl in Hsep.
    by apply (proj1 (contains_byte_false _ name) Hsep) in Hc.
Qed.

(** [FromSlash(path.Clean("/" + name))] for a name that passes the first
    test of [resolve]: a separator followed by plain elements. *)
Lemma cleaned_name goos name :
  unsafe_name goos name = false ->
  exists es,
    Forall (plain (IsPathSeparator goos)) es /\
    bytes (filepath_FromSlash goos (path_Clean ("/" +:+ name)))
    = Separator goos :: join (Separator goos) es.
Proof.
  intros Hsafe. unfold path_Clean.
  change (bytes ("/" +:+ name)) with (slash :: bytes name).
  destruct (clean_bytes_spec slash is_slash slash_is_sep dot_not_slash (slash :: bytes name))
    as [Hc Hwf].
  change (absolute is_slash (slash :: bytes name)) with true in *.
  set (S := push_fields is_slash true (slash :: bytes name) []) in *.
  assert (Forall (plain is_slash) S) as Hpl.
  { destruct Hwf as (ns & k & HS & Hns & Hk). rewrite (Hk eq_refl) in HS.
    simpl in HS. rewrite app_nil_r in HS. by rewrite HS. }
  assert (Lexical.clean_bytes slash is_slash (slash :: bytes name)
          = slash :: join slash (rev S)) as ->.
  { rewrite Hc. destruct S as [|e S'] eqn:HS; [done|].
    rewrite finish_cons; [done|]. apply Forall_cons in Hpl as [He _]. by destruct He. }
  exists (rev S).
  assert (forall e c, e ∈ S -> c ∈ e -> c ∈ bytes name /\ c <> slash) as Hfrom.
  { intros e c He Hce. apply push_fields_from in He as [He|He]; [|by apply elem_of_nil in He].
    destruct (field_in_path _ _ _ _ He Hce) as [Hin Hns]. split.
    - apply elem_of_cons in Hin as [->|Hin]; [done|done].
    - intros ->. done. }
  assert (Forall (plain (IsPathSeparator goos)) (rev S)) as Hplain.
  { apply Forall_forall. intros e He. apply list_elem_of_In, in_rev, list_elem_of_In in He.
    rewrite Forall_forall in Hpl. destruct (Hpl _ He) as (H1 & H2 & H3 & H4).
    split_and!; [done..|]. apply Forall_forall. intros c Hce.
    destruct (Hfrom _ _ He Hce) as [Hin Hns].
    destruct (unsafe_name_false _ _ Hsafe _ Hin) as [_ Hs].
    apply not_true_is_false. intros Ht. apply IsPathSeparator_spec in Ht as [?|?]; auto. }
  split; [done|].
  unfold filepath_FromSlash. destruct goos; [by rewrite bytes_str|].
  rewrite !bytes_str. cbn [map].

  change (is_slash slash) with true. cbn iota. f_equal.
  apply (map_join (fun c => if is_slash c then Separator windows else c) slash).
  apply Forall_forall. intros e He. apply Forall_forall. intros c Hce.
  apply list_elem_of_In, in_rev, list_elem_of_In in He.
  destruct (Hfrom _ _ He Hce) as [_ Hns].
  unfold is_slash. by apply Ascii.eqb_neq in Hns as ->.
Qed.

(** ** What [resolve] returns *)

Lemma dir_of_not_empty d : dir_of d <> ""%string.
Proof. unfold dir_of. by destruct (String.eqb_spec (Config.Dir (Dir.Config d)) ""). Qed.

Lemma root_of_dir_of goos d : root_of goos d = filepath_Join goos [dir_of d].
Proof. symmetry. apply filepath_Join_one. Qed.

Lemma resolve_safe goos d ctx name :
  unsafe_name goos name = false ->
  Dir.resolve goos d ctx name =
  match declared_subdir d ctx with
  | Some subdir =>
      filepath_Join goos
        [dir_of d; subdir; filepath_FromSlash goos (path_Clean ("/" +:+ name))]
  | None =>
      filepath_Join goos [dir_of d; filepath_FromSlash goos (path_Clean ("/" +:+ name))]
  end.
Proof.
  intros Hsafe. unfold Dir.resolve, declared_subdir, authenticated_as, dir_of.
  rewrite Hsafe.
  destruct (AuthFromContext ctx) as [authInfo|]; [|done].
  destruct (Authenticated authInfo); [|done].
  destruct (Config.Users (Dir.Config d) !! Username authInfo) as [userInfo|]; [|done].
  by destruct (UserInfo.Subdir userInfo).
Qed.

Lemma resolve_unsafe goos d ctx name :
  unsafe_name goos name = true -> Dir.resolve goos d ctx name = ""%string.
Proof. intros H. unfold Dir.resolve. by rewrite H. Qed.

Lemma resolve_empty_iff goos d ctx name :
  Dir.resolve goos d ctx name = ""%string <-> unsafe_name goos name = true.
Proof.
  split; [|apply resolve_unsafe].
  destruct (unsafe_name goos name) eqn:Hsafe; [done|].
  rewrite resolve_safe by done. intros H.
  destruct (declared_subdir d ctx);
    by apply filepath_Join_not_empty in H; [|apply dir_of_not_empty].
Qed.

Lemma within_under goos a es :
  a <> [] -> Forall (plain (IsPathSeparator goos)) es ->
  lexically_within goos
    (str (Lexical.clean_bytes (Separator goos) (IsPathSeparator goos) a))
    (str (Lexical.clean_bytes (Separator goos) (IsPathSeparator goos)
            (a ++ Separator goos :: Separator goos :: join (Separator goos) es)))
  = true.
Proof.
  intros Ha Hes. unfold lexically_within, IsAbs, elements. rewrite !bytes_str.
  destruct (clean_bytes_within _ _ (Separator_is_sep goos) (dot_not_Separator goos) a es Ha Hes)
    as [Habs Hstrip].
  rewrite Habs, Hstrip, eqb_reflx. simpl. apply forallb_forall. intros e He.
  apply list_elem_of_In in He. rewrite Forall_forall in Hes.
  destruct (Hes _ He) as (_ & _ & Hdd & _). by rewrite bool_decide_eq_false_2.
Qed.

Lemma resolve_within goos d ctx name :
  Dir.resolve goos d ctx name <> ""%string ->
  lexically_within goos (base_of goos d ctx) (Dir.resolve goos d ctx name) = true.
Proof.
  intros Hne.
  assert (unsafe_name goos name = false) as Hsafe.
  { apply not_true_is_false. intros H. by apply resolve_unsafe with (d := d) (ctx := ctx) in H. }
  rewrite resolve_safe by done. unfold base_of.
  destruct (cleaned_name goos name Hsafe) as (es & Hes & Hcl).
  pose proof (dir_of_not_empty d) as Hd.
  assert (bytes (dir_of d) <> []) as Hdb by (by rewrite bytes_nil).
  destruct (declared_subdir d ctx) as [subdir|].
  - rewrite <- (str_bytes (filepath_Join goos [dir_of d; subdir])).
    rewrite <- (str_bytes (filepath_Join goos [dir_of d; subdir; _])).
    rewrite filepath_Join_two, filepath_Join_three, Hcl by done.
    apply within_under; [|done]. by destruct (bytes (dir_of d)).
  - rewrite root_of_dir_of.
    rewrite <- (str_bytes (filepath_Join goos [dir_of d])).
    rewrite <- (str_bytes (filepath_Join goos [dir_of d; _])).
    rewrite filepath_Join_two, Hcl by done.
    assert (bytes (filepath_Join goos [dir_of d])
            = Lexical.clean_bytes (Separator goos) (IsPathSeparator goos) (bytes (dir_of d))) as ->.
    { cbn [filepath_Join strings_Join]. apply String.eqb_neq in Hd. rewrite Hd.
      apply filepath_Clean_bytes. }
    by apply within_under.
Qed.

Lemma filepath_Join_onto_root goos d x :
  filepath_Join goos [root_of goos d; x] = filepath_Join goos [dir_of d; x].
Proof.
  pose proof (dir_of_not_empty d) as Hd.
  rewrite root_of_dir_of. apply bytes_inj.
  rewrite filepath_Join_two by by apply filepath_Join_not_empty.
  rewrite filepath_Join_two by done.
  assert (bytes (filepath_Join goos [dir_of d])
          = Lexical.clean_bytes (Separator goos) (IsPathSeparator goos) (bytes (dir_of d))) as ->.
  { cbn [filepath_Join strings_Join]. apply String.eqb_neq in Hd. rewrite Hd.
    apply filepath_Clean_bytes. }
  apply (clean_bytes_prefix _ _ (Separator_is_sep goos) (dot_not_Separator goos)).
  by rewrite bytes_nil.
Qed.

(** ** Programs *)

Lemma calls_only_bind {A B} ok (m : Prog A) (f : A -> Prog B) :
  calls_only ok m -> (forall a, calls_only ok (f a)) -> calls_only ok (bind m f).
Proof.
  intros Hm Hf. induction m; simpl in *; try done; try (destruct Hm; split; auto).
Qed.

Lemma calls_only_run {W A} ok (h : Host W) (p : Prog A) w :
  calls_only ok p -> Forall ok (run h p w).2.
Proof.
  revert w. induction p as [a| |n pm k IH|n f pm k IH|n k IH|o n k IH|n k IH|fs m k IH];
    intros w Hp; simpl in *; try done.
  - destruct Hp as [H1 H2]. destruct (sys_Mkdir h n pm w) as [r w1].
    specialize (IH r w1 (H2 r)). destruct (run h (k r) w1) as [[o w2] tr]. by constructor.
  - destruct Hp as [H1 H2]. destruct (sys_OpenFile h n f pm w) as [r w1].
    specialize (IH r w1 (H2 r)). destruct (run h (k r) w1) as [[o w2] tr]. by constructor.
  - destruct Hp as [H1 H2]. destruct (sys_RemoveAll h n w) as [r w1].
    specialize (IH r w1 (H2 r)). destruct (run h (k r) w1) as [[o w2] tr]. by constructor.
  - destruct Hp as [H1 H2]. destruct (sys_Rename h o n w) as [r w1].
    specialize (IH r w1 (H2 r)). destruct (run h (k r) w1) as [[o' w2] tr]. by constructor.
  - destruct Hp as [H1 H2]. destruct (sys_Stat h n w) as [r w1].
    specialize (IH r w1 (H2 r)). destruct (run h (k r) w1) as [[o w2] tr]. by constructor.
  - destruct Hp as [H1 H2].
    specialize (IH (sys_Log h fs m w) H2). destruct (run h k _) as [[o w2] tr]. by constructor.
Qed.

Lemma calls_only_log_if ok cond fields msg :
  ok (SysLog fields msg) -> calls_only ok (Dir.log_if cond fields msg).
Proof. intros H. unfold Dir.log_if. by destruct cond. Qed.

(** ** The permission checks *)

(** A permission check returns a boolean or panics; it calls nothing. *)
Lemma hasRead_cases ctx d : Dir.hasRead ctx d = Panic \/ exists b, Dir.hasRead ctx d = Ret b.
Proof.
  unfold Dir.hasRead. destruct (AuthFromContext ctx) as [a|]; [|eauto].
  destruct (Authenticated a); [|eauto].
  destruct (Config.Users (Dir.Config d) !! Username a); simpl; eauto.
Qed.
Lemma hasWrite_cases ctx d : Dir.hasWrite ctx d = Panic \/ exists b, Dir.hasWrite ctx d = Ret b.
Proof.
  unfold Dir.hasWrite. destruct (AuthFromContext ctx) as [a|]; [|eauto].
  destruct (Authenticated a); [|eauto].
  destruct (Config.Users (Dir.Config d) !! Username a); simpl; eauto.
Qed.
Lemma hasDelete_cases ctx d : Dir.hasDelete ctx d = Panic \/ exists b, Dir.hasDelete ctx d = Ret b.
Proof.
  unfold Dir.hasDelete. destruct (AuthFromContext ctx) as [a|]; [|eauto].
  destruct (Authenticated a); [|eauto].
  destruct (Config.Users (Dir.Config d) !! Username a); simpl; eauto.
Qed.
Lemma hasList_cases ctx d : Dir.hasList ctx d = Panic \/ exists b, Dir.hasList ctx d = Ret b.
Proof.
  unfold Dir.hasList. destruct (AuthFromContext ctx) as [a|]; [|eauto].
  destruct (Authenticated a); [|eauto].
  destruct (Config.Users (Dir.Config d) !! Username a); simpl; eauto.
Qed.

Lemma unauthenticated_checks ctx d :
  authenticated_as ctx = None ->
  let open := size (Config.Users (Dir.Config d)) =? 0 in
  Dir.hasRead ctx d = Ret open /\ Dir.hasWrite ctx d = Ret open /\
  Dir.hasDelete ctx d = Ret open /\ Dir.hasList ctx d = Ret open.
Proof.
  unfold authenticated_as, Dir.hasRead, Dir.hasWrite, Dir.hasDelete, Dir.hasList.
  destruct (AuthFromContext ctx) as [a|]; [|done].
  by destruct (Authenticated a).
Qed.

Lemma authenticated_checks ctx d user :
  authenticated_as ctx = Some user ->
  let entry := Config.Users (Dir.Config d) !! user in
  Dir.hasRead ctx d
  = (userInfo <- deref entry ;; Ret (default true (UserInfo.Read userInfo)))%prog /\
  Dir.hasWrite ctx d
  = (userInfo <- deref entry ;; Ret (default true (UserInfo.Write userInfo)))%prog /\
  Dir.hasDelete ctx d
  = (userInfo <- deref entry ;; Ret (default true (UserInfo.Delete userInfo)))%prog /\
  Dir.hasList ctx d
  = (userInfo <- deref entry ;; Ret (default true (UserInfo.List userInfo)))%prog.
Proof.
  unfold authenticated_as, Dir.hasRead, Dir.hasWrite, Dir.hasDelete, Dir.hasList.
  destruct (AuthFromContext ctx) as [a|]; [|done].
  destruct (Authenticated a); [|done]. intros [= <-]. simpl.
  by destruct (Config.Users (Dir.Config d) !! Username a) as [[? [] [] [] []]|].
Qed.

(** An authenticated request of a user without entry makes every check panic. *)
Lemma missing_entry_checks ctx d user :
  authenticated_as ctx = Some user ->
  Config.Users (Dir.Config d) !! user = None ->
  Dir.hasRead ctx d = Panic /\ Dir.hasWrite ctx d = Panic /\
  Dir.hasDelete ctx d = Panic /\ Dir.hasList ctx d = Panic.
Proof.
  intros Ha Hu. destruct (authenticated_checks ctx d user Ha) as (-> & -> & -> & ->).
  by rewrite Hu.
Qed.

(** ** The calls an operation can make *)

(** Walk a program of the adapter: split on every test and on every result
    of a call, leaving [side] to show that each call made is allowed. *)
Ltac walk side :=
  repeat (cbn [bind negb orb];
    match goal with
    | |- calls_only _ (Ret _) => exact I
    | |- calls_only _ Panic => exact I
    | |- calls_only _ (bind (Dir.log_if _ _ _) _) =>
        apply calls_only_bind; [by apply calls_only_log_if|intros]
    | |- calls_only _ (bind (Dir.hasRead ?c ?d) _) =>
        destruct (hasRead_cases c d) as [->|[[] ->]]
    | |- calls_only _ (bind (Dir.hasWrite ?c ?d) _) =>
        destruct (hasWrite_cases c d) as [->|[[] ->]]
    | |- calls_only _ (bind (Dir.hasDelete ?c ?d) _) =>
        destruct (hasDelete_cases c d) as [->|[[] ->]]
    | |- calls_only _ (bind (Dir.hasList ?c ?d) _) =>
        destruct (hasList_cases c d) as [->|[[] ->]]
    | |- calls_only _ (if String.eqb ?a ?b then _ else _) =>
        destruct (String.eqb_spec a b)
    | |- calls_only _ (if String.eqb ?a ?b || _ then _ else _) =>
        destruct (String.eqb_spec a b)
    | |- calls_only _ (if ?b then _ else _) => destruct b
    | |- calls_only _ (match ?x with _ => _ end) => destruct x
    | |- calls_only _ _ => split; [side|intros]
    end).

Lemma resolve_is_clean goos d ctx name :
  Dir.resolve goos d ctx name <> ""%string ->
  filepath_Clean goos (Dir.resolve goos d ctx name) = Dir.resolve goos d ctx name.
Proof.
  intros Hne.
  assert (unsafe_name goos name = false) as Hsafe.
  { apply not_true_is_false. intros H. by apply resolve_unsafe with (d := d) (ctx := ctx) in H. }
  rewrite resolve_safe by done. pose proof (dir_of_not_empty d) as Hd.
  apply String.eqb_neq in Hd.
  destruct (declared_subdir d ctx); cbn [filepath_Join]; rewrite Hd;
    apply filepath_Clean_idempotent.
Qed.

(** A resolved path other than the cleaned root is not the root as
    configured either. *)
Lemma resolved_is_not_Dir goos d ctx name :
  Dir.resolve goos d ctx name <> ""%string ->
  root_of goos d <> Dir.resolve goos d ctx name ->
  String.eqb (Dir.resolve goos d ctx name) (root_of goos d) = false /\
  String.eqb (Dir.resolve goos d ctx name) (Config.Dir (Dir.Config d)) = false.
Proof.
  intros Hne Hroot. split; apply String.eqb_neq; [done|].
  intros Heq. apply Hroot. unfold root_of. rewrite <- Heq. by apply resolve_is_clean.
Qed.

Lemma RemoveAll_spares_root goos d ctx name :
  Dir.resolve goos d ctx name <> ""%string ->
  Dir.resolve goos d ctx name <> root_of goos d ->
  spares_root goos d (SysRemoveAll (Dir.resolve goos d ctx name)).
Proof. intros Hne Hroot. by apply resolved_is_not_Dir. Qed.

Lemma Rename_spares_root goos d ctx oldName newName :
  Dir.resolve goos d ctx oldName <> ""%string ->
  Dir.resolve goos d ctx newName <> ""%string ->
  root_of goos d <> Dir.resolve goos d ctx oldName ->
  root_of goos d <> Dir.resolve goos d ctx newName ->
  spares_root goos d
    (SysRename (Dir.resolve goos d ctx oldName) (Dir.resolve goos d ctx newName)).
Proof.
  intros Ho Hn Hro Hrn.
  destruct (resolved_is_not_Dir goos d ctx oldName Ho Hro) as [H1 H2].
  destruct (resolved_is_not_Dir goos d ctx newName Hn Hrn) as [H3 H4].
  unfold spares_root. simpl. by rewrite H1, H2, H3, H4.
Qed.

Lemma serve_spares_root goos d r : calls_only (spares_root goos d) (serve goos d r).
Proof.
  destruct r as [ctx name perm|ctx name flag perm|ctx name|ctx oldName newName|ctx name];
    (apply calls_only_bind; [|intros; exact I]).
  - unfold Dir.Mkdir. walk ltac:(done).
  - unfold Dir.OpenFile. walk ltac:(done).
  - unfold Dir.RemoveAll. fold (root_of goos d).
    walk ltac:(by apply RemoveAll_spares_root).
  - unfold Dir.Rename. fold (root_of goos d).
    walk ltac:(by apply Rename_spares_root).
  - unfold Dir.Stat. walk ltac:(done).
Qed.

(** * The claims *)

(** C1. Whenever [Dir.resolve] returns a non-empty path, that path lies
    lexically within the configured root, or within root/subdir when the
    authenticated user's policy declares a subdirectory, for every virtual
    path (with or without [..] segments) and every context. *)
Theorem resolve_stays_within_base (goos : GOOS) (d : Dir.t) (ctx : Context) (name : string) :
  Dir.resolve goos d ctx name <> ""%string ->
  lexically_within goos (base_of goos d ctx) (Dir.resolve goos d ctx name) = true.
Proof. apply resolve_within. Qed.

Lemma resolve_stays_within_base_witness :
  Dir.resolve unix (serving "/data" {[ "alice"%string := alice_policy ]})
    (logged_in "alice") "/../../etc/./passwd" = "/data/alice-home/etc/passwd"%string /\
  lexically_within unix
    (base_of unix (serving "/data" {[ "alice"%string := alice_policy ]}) (logged_in "alice"))
    (Dir.resolve unix (serving "/data" {[ "alice"%string := alice_policy ]})
       (logged_in "alice") "/../../etc/./passwd") = true.
Proof.
  split; [vm_compute; reflexivity|].
  apply (resolve_stays_within_base unix
           (serving "/data" {[ "alice"%string := alice_policy ]})
           (logged_in "alice") "/../../etc/./passwd").
  vm_compute. discriminate.
Defined.

(** C2, at the failing input: an authenticated request of a user that has
    no entry in the table does not pass the permission checks; each check
    dereferences the nil entry and panics, and so does the operation. *)
Theorem missing_entry_panics :
  let d := serving "/data" {[ "alice"%string := unrestricted ]} in
  let ctx := logged_in "ghost" in
  Dir.hasRead ctx d = Panic /\ Dir.hasWrite ctx d = Panic /\
  Dir.hasDelete ctx d = Panic /\ Dir.hasList ctx d = Panic /\
  Dir.Stat unix d ctx "/x" = Panic /\ Dir.Mkdir unix d ctx "/x" 493%Z = Panic.
Proof. vm_compute. by split_and!. Qed.

(** C3, as the code has it: [RemoveAll] of a path that resolves to the root
    is [ErrInvalid] whatever the permissions; [Rename] from or to such a
    path, both names resolving, is [ErrInvalid] when the write check allows
    and [ErrPermission] when it denies. *)
Theorem root_is_protected (goos : GOOS) (d : Dir.t) (ctx : Context) :
  (forall name,
      Dir.resolve goos d ctx name = root_of goos d ->
      Dir.RemoveAll goos d ctx name = Ret (Some ErrInvalid)) /\
  (forall oldName newName allowed,
      Dir.resolve goos d ctx oldName <> ""%string ->
      Dir.resolve goos d ctx newName <> ""%string ->
      Dir.resolve goos d ctx oldName = root_of goos d \/
      Dir.resolve goos d ctx newName = root_of goos d ->
      Dir.hasWrite ctx d = Ret allowed ->
      Dir.Rename goos d ctx oldName newName
      = Ret (Some (if allowed then ErrInvalid else ErrPermission))).
Proof.
  split.
  - intros name Hroot. unfold Dir.RemoveAll. rewrite Hroot. fold (root_of goos d).
    pose proof (filepath_Clean_not_empty goos (Config.Dir (Dir.Config d))) as Hne.
    apply String.eqb_neq in Hne. unfold root_of at 1. rewrite Hne.
    by rewrite String.eqb_refl.
  - intros oldName newName allowed Ho Hn Hroot Hw. unfold Dir.Rename.
    apply String.eqb_neq in Ho, Hn. rewrite Ho, Hn, Hw. simpl.
    destruct allowed; [|done]. simpl. fold (root_of goos d).
    destruct Hroot as [<-|<-]; rewrite String.eqb_refl; by rewrite ?orb_true_r.
Qed.

Lemma root_is_protected_witness :
  Dir.RemoveAll unix (serving "/data" {[ "admin"%string := unrestricted ]})
    (logged_in "admin") "/" = Ret (Some ErrInvalid) /\
  Dir.Rename unix (serving "/data" {[ "admin"%string := unrestricted ]})
    (logged_in "admin") "/a" "/." = Ret (Some ErrInvalid).
Proof.
  destruct (root_is_protected unix (serving "/data" {[ "admin"%string := unrestricted ]})
              (logged_in "admin")) as [Hrm Hmv].
  split.
  - apply Hrm. vm_compute. reflexivity.
  - apply (Hmv "/a"%string "/."%string true).
    + vm_compute. discriminate.
    + vm_compute. discriminate.
    + right. vm_compute. reflexivity.
    + vm_compute. reflexivity.
Defined.

(** C3 as stated fails: with the write permission denied, [Rename] of the
    root is [ErrPermission], not [ErrInvalid]. *)
Lemma rename_root_without_write :
  let d := serving "/data" {[ "bob"%string := read_only ]} in
  let ctx := logged_in "bob" in
  Dir.resolve unix d ctx "/" = root_of unix d /\
  Dir.Rename unix d ctx "/" "/x" = Ret (Some ErrPermission) /\
  Dir.Rename unix d ctx "/" "/x" <> Ret (Some ErrInvalid).
Proof. vm_compute. by split_and!. Qed.

(** C4. For an unauthenticated request every permission check allows
    exactly when the user table is empty: with no users all four checks
    pass, and with at least one user each of the five operations, once it
    reaches its permission check, returns [ErrPermission] (for [OpenFile],
    after at most the [os.Stat] of the target). *)
Theorem unauthenticated_gate (goos : GOOS) (d : Dir.t) (ctx : Context) :
  authenticated_as ctx = None ->
  (Config.Users (Dir.Config d) = ∅ ->
     Dir.hasRead ctx d = Ret true /\ Dir.hasWrite ctx d = Ret true /\
     Dir.hasDelete ctx d = Ret true /\ Dir.hasList ctx d = Ret true) /\
  (Config.Users (Dir.Config d) <> ∅ ->
     (Dir.hasRead ctx d = Ret false /\ Dir.hasWrite ctx d = Ret false /\
      Dir.hasDelete ctx d = Ret false /\ Dir.hasList ctx d = Ret false) /\
     (forall name perm,
         Dir.resolve goos d ctx name <> ""%string ->
         Dir.Mkdir goos d ctx name perm = Ret (Some ErrPermission)) /\
     (forall name flag perm,
         Dir.resolve goos d ctx name <> ""%string ->
         returns_after_stat (None, Some ErrPermission)
           (Dir.OpenFile goos d ctx name flag perm)) /\
     (forall name,
         Dir.resolve goos d ctx name <> ""%string ->
         Dir.resolve goos d ctx name <> root_of goos d ->
         Dir.RemoveAll goos d ctx name = Ret (Some ErrPermission)) /\
     (forall oldName newName,
         Dir.resolve goos d ctx oldName <> ""%string ->
         Dir.resolve goos d ctx newName <> ""%string ->
         Dir.Rename goos d ctx oldName newName = Ret (Some ErrPermission)) /\
     (forall name,
         Dir.resolve goos d ctx name <> ""%string ->
         Dir.Stat goos d ctx name = Ret (None, Some ErrPermission))).
Proof.
  intros Hanon. destruct (unauthenticated_checks ctx d Hanon) as (Hr & Hw & Hd & Hl).
  cbv zeta in *. split.
  - intros Hempty. rewrite Hempty, map_size_empty in *. by split_and!.
  - intros Hne. apply map_size_non_empty_iff in Hne. apply Nat.eqb_neq in Hne.
    rewrite Hne in *. split_and!; try done.
    + intros name perm Hres. unfold Dir.Mkdir. apply String.eqb_neq in Hres.
      by rewrite Hres, Hw.
    + intros name flag perm Hres. unfold Dir.OpenFile. apply String.eqb_neq in Hres.
      rewrite Hres, Hw, Hr, Hl.
      destruct (Z.land flag 3 =? 0)%Z; simpl; [|constructor].
      constructor. intros [stat err]. destruct stat as [fi|]; simpl; [|constructor].
      destruct (fi_IsDir fi); constructor.
    + intros name Hres Hroot. unfold Dir.RemoveAll. apply String.eqb_neq in Hres, Hroot.
      unfold root_of in Hroot. by rewrite Hres, Hroot, Hd.
    + intros oldName newName Ho Hn. unfold Dir.Rename. apply String.eqb_neq in Ho, Hn.
      by rewrite Ho, Hn, Hw.
    + intros name Hres. unfold Dir.Stat. apply String.eqb_neq in Hres.
      by rewrite Hres, Hl.
Qed.

Lemma unauthenticated_gate_witness :
  (Dir.hasRead anonymous (serving "/data" ∅) = Ret true /\
   Dir.hasWrite anonymous (serving "/data" ∅) = Ret true /\
   Dir.hasDelete anonymous (serving "/data" ∅) = Ret true /\
   Dir.hasList anonymous (serving "/data" ∅) = Ret true) /\
  Dir.Mkdir unix (serving "/data" {[ "bob"%string := unrestricted ]}) anonymous "/new" 493%Z
  = Ret (Some ErrPermission).
Proof.
  split.
  - apply (unauthenticated_gate unix (serving "/data" ∅) anonymous); reflexivity.
  - destruct (unauthenticated_gate unix (serving "/data" {[ "bob"%string := unrestricted ]})
                anonymous) as [_ Hdeny]; [reflexivity|].
    destruct Hdeny as (_ & Hmkdir & _).
    + vm_compute. discriminate.
    + apply Hmkdir. vm_compute. discriminate.
Defined.

(** C5. [Dir.resolve] rejects a name (returns [""]) exactly when the name
    contains a null byte or, where the separator is not a slash, that
    separator; and exactly then each of the five operations returns
    [ErrNotExist] at once, without a call to the filesystem. *)
Theorem resolve_rejects (goos : GOOS) (d : Dir.t) (ctx : Context) (name : string) :
  let rejected (n : string) :=
    contains_byte NUL n = true \/
    (Separator goos <> slash /\ contains_byte (Separator goos) n = true) in
  (Dir.resolve goos d ctx name = ""%string <-> rejected name) /\
  (forall perm, Dir.Mkdir goos d ctx name perm = Ret (Some ErrNotExist) <-> rejected name) /\
  (forall flag perm,
      Dir.OpenFile goos d ctx name flag perm = Ret (None, Some ErrNotExist) <-> rejected name) /\
  (Dir.RemoveAll goos d ctx name = Ret (Some ErrNotExist) <-> rejected name) /\
  (forall other,
      Dir.Rename goos d ctx name other = Ret (Some ErrNotExist)
      <-> rejected name \/ rejected other) /\
  (forall other,
      Dir.Rename goos d ctx other name = Ret (Some ErrNotExist)
      <-> rejected other \/ rejected name) /\
  (Dir.Stat goos d ctx name = Ret (None, Some ErrNotExist) <-> rejected name).
Proof.
  intros rejected.
  assert (forall n, rejected n <-> unsafe_name goos n = true) as Hrej.
  { intros n. unfold rejected, unsafe_name.
    rewrite orb_true_iff, andb_true_iff, negb_true_iff, Ascii.eqb_neq. tauto. }
  assert (forall n, rejected n <-> String.eqb (Dir.resolve goos d ctx n) "" = true) as Hres.
  { intros n. by rewrite Hrej, <- resolve_empty_iff, String.eqb_eq. }
  split_and!.
  - by rewrite Hrej, resolve_empty_iff.
  - intros perm. rewrite Hres. unfold Dir.Mkdir.
    destruct (String.eqb (Dir.resolve goos d ctx name) ""); [done|].
    split; [|done].
    destruct (hasWrite_cases ctx d) as [->|[[] ->]]; done.
  - intros flag perm. rewrite Hres. unfold Dir.OpenFile.
    destruct (String.eqb (Dir.resolve goos d ctx name) ""); [done|].
    split; [|done].
    destruct (Z.land flag 3 =? 0)%Z; simpl; [done|].
    destruct (hasWrite_cases ctx d) as [->|[[] ->]]; simpl; [done| |done].
    by destruct (Z.land flag 3 =? O_RDWR)%Z.
  - rewrite Hres. unfold Dir.RemoveAll.
    destruct (String.eqb (Dir.resolve goos d ctx name) ""); [done|].
    split; [|done].
    destruct (String.eqb _ _); [done|].
    destruct (hasDelete_cases ctx d) as [->|[[] ->]]; done.
  - intros other. rewrite !Hres. unfold Dir.Rename.
    destruct (String.eqb (Dir.resolve goos d ctx name) ""); [by split; [left|]|].
    destruct (String.eqb (Dir.resolve goos d ctx other) ""); [by split; [right|]|].
    split; [|by intros []].
    destruct (hasWrite_cases ctx d) as [->|[[] ->]]; simpl; [done| |done].
    by destruct (_ || _).
  - intros other. rewrite !Hres. unfold Dir.Rename.
    destruct (String.eqb (Dir.resolve goos d ctx other) ""); [by split; [left|]|].
    destruct (String.eqb (Dir.resolve goos d ctx name) ""); [by split; [right|]|].
    split; [|by intros []].
    destruct (hasWrite_cases ctx d) as [->|[[] ->]]; simpl; [done| |done].
    by destruct (_ || _).
  - rewrite Hres. unfold Dir.Stat.
    destruct (String.eqb (Dir.resolve goos d ctx name) ""); [done|].
    split; [|done].
    destruct (hasList_cases ctx d) as [->|[[] ->]]; done.
Qed.

(** C6. For an authenticated request whose user has a policy entry, each
    permission check returns the entry's flag for that kind, an unset flag
    counting as allowed.  So a user with [Write] set to false and the other
    flags unset passes the read, list and delete checks ([Stat], a read-only
    [OpenFile] and [RemoveAll] below the root reach the filesystem), while
    [Mkdir], [OpenFile] with a write bit and [Rename] return
    [ErrPermission]. *)
Theorem policy_flags_decide (goos : GOOS) (d : Dir.t) (ctx : Context)
        (user : string) (userInfo : UserInfo.t) :
  authenticated_as ctx = Some user ->
  Config.Users (Dir.Config d) !! user = Some userInfo ->
  (Dir.hasRead ctx d = Ret (default true (UserInfo.Read userInfo)) /\
   Dir.hasWrite ctx d = Ret (default true (UserInfo.Write userInfo)) /\
   Dir.hasDelete ctx d = Ret (default true (UserInfo.Delete userInfo)) /\
   Dir.hasList ctx d = Ret (default true (UserInfo.List userInfo))) /\
  (UserInfo.Write userInfo = Some false ->
   UserInfo.Read userInfo = None ->
   UserInfo.Delete userInfo = None ->
   UserInfo.List userInfo = None ->
     (Dir.hasRead ctx d = Ret true /\ Dir.hasList ctx d = Ret true /\
      Dir.hasDelete ctx d = Ret true) /\
     (forall name perm,
         Dir.resolve goos d ctx name <> ""%string ->
         Dir.Mkdir goos d ctx name perm = Ret (Some ErrPermission)) /\
     (forall name flag perm,
         Dir.resolve goos d ctx name <> ""%string ->
         Z.land flag 3 <> 0%Z ->
         Dir.OpenFile goos d ctx name flag perm = Ret (None, Some ErrPermission)) /\
     (forall oldName newName,
         Dir.resolve goos d ctx oldName <> ""%string ->
         Dir.resolve goos d ctx newName <> ""%string ->
         Dir.Rename goos d ctx oldName newName = Ret (Some ErrPermission)) /\
     (forall name,
         Dir.resolve goos d ctx name <> ""%string ->
         exists k, Dir.Stat goos d ctx name = os_Stat (Dir.resolve goos d ctx name) k) /\
     (forall name flag perm,
         Dir.resolve goos d ctx name <> ""%string ->
         Z.land flag 3 = 0%Z ->
         exists k k',
           Dir.OpenFile goos d ctx name flag perm = os_Stat (Dir.resolve goos d ctx name) k /\
           forall r, k r = os_OpenFile (Dir.resolve goos d ctx name) flag perm k') /\
     (forall name,
         Dir.resolve goos d ctx name <> ""%string ->
         Dir.resolve goos d ctx name <> root_of goos d ->
         exists k, Dir.RemoveAll goos d ctx name = os_RemoveAll (Dir.resolve goos d ctx name) k)).
Proof.
  intros Hauth Hentry.
  destruct (authenticated_checks ctx d user Hauth) as (Hr & Hw & Hd & Hl).
  cbv zeta in *. rewrite Hentry in *. simpl in Hr, Hw, Hd, Hl.
  split; [done|]. intros Hwrite Hread Hdelete Hlist.
  rewrite Hwrite in Hw. rewrite Hread in Hr. rewrite Hdelete in Hd. rewrite Hlist in Hl.
  simpl in *. split_and!; try done.
  - intros name perm Hres. unfold Dir.Mkdir. apply String.eqb_neq in Hres.
    by rewrite Hres, Hw.
  - intros name flag perm Hres Hflag. unfold Dir.OpenFile.
    apply String.eqb_neq in Hres. apply Z.eqb_neq in Hflag.
    by rewrite Hres, Hflag, Hw.
  - intros oldName newName Ho Hn. unfold Dir.Rename. apply String.eqb_neq in Ho, Hn.
    by rewrite Ho, Hn, Hw.
  - intros name Hres. unfold Dir.Stat. apply String.eqb_neq in Hres.
    rewrite Hres, Hl. simpl. eauto.
  - intros name flag perm Hres Hflag. unfold Dir.OpenFile.
    apply String.eqb_neq in Hres. rewrite Hres, Hflag, Hr, Hl. simpl.
    eexists _, _. split; [reflexivity|].
    intros [[fi|] err]; simpl; [|reflexivity]. by destruct (fi_IsDir fi).
  - intros name Hres Hroot. unfold Dir.RemoveAll. apply String.eqb_neq in Hres, Hroot.
    unfold root_of in Hroot. rewrite Hres, Hroot, Hd. simpl. eauto.
Qed.

Lemma policy_flags_decide_witness :
  Dir.hasWrite (logged_in "alice") (serving "/data" {[ "alice"%string := alice_policy ]})
  = Ret false /\
  Dir.Mkdir unix (serving "/data" {[ "alice"%string := alice_policy ]})
    (logged_in "alice") "/new" 493%Z = Ret (Some ErrPermission).
Proof.
  destruct (policy_flags_decide unix (serving "/data" {[ "alice"%string := alice_policy ]})
              (logged_in "alice") "alice" alice_policy) as [Hflags Hdeny];
    [reflexivity|reflexivity|].
  split.
  - apply Hflags.
  - destruct Hdeny as (_ & Hmkdir & _); [reflexivity..|].
    apply Hmkdir. vm_compute. discriminate.
Defined.

(** C7. [OpenFile], with the intent in the low two bits of the flag: an
    intent with a write bit and the write check failing is denied at once;
    a read-only or read-write intent (its write check, if any, passed) is
    denied after the [os.Stat] of the target when the target is a directory
    and the list check fails, or is no directory and the read check fails.
    No denial reaches [os.OpenFile]. *)
Theorem OpenFile_permission_gate {W : Type} (h : Host W) (w : W) (goos : GOOS)
        (d : Dir.t) (ctx : Context) (name : string) (flag : Z) (perm : FileMode) :
  let target := Dir.resolve goos d ctx name in
  let intent := Z.land flag 3 in
  let denied : option File * option error := (None, Some ErrPermission) in
  target <> ""%string ->
  (intent <> 0%Z -> Dir.hasWrite ctx d = Ret false ->
     run h (Dir.OpenFile goos d ctx name flag perm) w = (Returned denied, w, [])) /\
  (intent = 0%Z \/ intent = O_RDWR /\ Dir.hasWrite ctx d = Ret true ->
     let stat := (sys_Stat h target w).1.1 in
     let w' := (sys_Stat h target w).2 in
     (is_dir stat = true -> Dir.hasList ctx d = Ret false ->
        run h (Dir.OpenFile goos d ctx name flag perm) w
        = (Returned denied, w', [SysStat target])) /\
     (is_dir stat = false -> Dir.hasRead ctx d = Ret false ->
        run h (Dir.OpenFile goos d ctx name flag perm) w
        = (Returned denied, w', [SysStat target]))).
Proof.
  intros target intent denied Hres. apply String.eqb_neq in Hres.
  split.
  - intros Hint Hw. unfold Dir.OpenFile. fold target. apply Z.eqb_neq in Hint.
    fold intent. by rewrite Hres, Hint, Hw.
  - intros Hint stat w'.
    assert (Dir.OpenFile goos d ctx name flag perm
            = os_Stat target (fun '(stat, _) =>
                let open :=
                  os_OpenFile target flag perm (fun '(f, err) =>
                    match err with
                    | Some e => Ret (None, Some (SysErr e))
                    | None =>
                        bind (Dir.log_if (Logging.Read (Config.Log (Dir.Config d)))
                                [("path"%string, target);
                                 ("user"%string, Dir.resolveUser d ctx)] "Opened file")
                             (fun _ => Ret (f, None))
                    end) in
                let read_check :=
                  bind (Dir.hasRead ctx d)
                       (fun allowed => if negb allowed then Ret denied else open) in
                if is_dir stat
                then bind (Dir.hasList ctx d)
                          (fun allowed => if negb allowed then Ret denied else read_check)
                else read_check)) as ->.
    { unfold Dir.OpenFile. fold target. fold intent. rewrite Hres.
      destruct Hint as [Hint|[Hint Hw]]; rewrite Hint; simpl; [done|].
      by rewrite Hw. }
    subst stat w'. simpl. destruct (sys_Stat h target w) as [[stat err] w']. simpl.
    split.
    + intros Hdir Hl. by rewrite Hdir, Hl.
    + intros Hdir Hr. by rewrite Hdir, Hr.
Qed.

Lemma OpenFile_permission_gate_witness :
  run mem_host
    (Dir.OpenFile unix (serving "/data" {[ "bob"%string := read_only ]}) (logged_in "bob")
       "/notes" 1%Z 420%Z) ∅
  = (Returned (None, Some ErrPermission), ∅, []) /\
  run mem_host
    (Dir.OpenFile unix (serving "/data" {[ "eve"%string := list_denied ]}) (logged_in "eve")
       "/pub" 0%Z 0%Z) {[ "/data/pub"%string := true ]}
  = (Returned (None, Some ErrPermission), {[ "/data/pub"%string := true ]},
     [SysStat "/data/pub"]).
Proof.
  split.
  - apply (OpenFile_permission_gate mem_host ∅ unix
             (serving "/data" {[ "bob"%string := read_only ]}) (logged_in "bob")
             "/notes" 1%Z 420%Z).
    + vm_compute. discriminate.
    + vm_compute. discriminate.
    + vm_compute. reflexivity.
  - destruct (OpenFile_permission_gate mem_host {[ "/data/pub"%string := true ]} unix
                (serving "/data" {[ "eve"%string := list_denied ]}) (logged_in "eve")
                "/pub" 0%Z 0%Z) as [_ Hread].
    + vm_compute. discriminate.
    + destruct Hread as [Hdir _]; [left; reflexivity|].
      etrans; [apply Hdir; vm_compute; reflexivity|].
      vm_compute. reflexivity.
Defined.

(** The code asks for more than C7 lists: a directory opened for reading
    needs the read permission as well as the list permission. *)
Lemma OpenFile_directory_needs_read {W : Type} (h : Host W) (w : W) (goos : GOOS)
      (d : Dir.t) (ctx : Context) (name : string) (flag : Z) (perm : FileMode) :
  Dir.resolve goos d ctx name <> ""%string ->
  Z.land flag 3 = 0%Z ->
  is_dir (sys_Stat h (Dir.resolve goos d ctx name) w).1.1 = true ->
  Dir.hasList ctx d = Ret true ->
  Dir.hasRead ctx d = Ret false ->
  run h (Dir.OpenFile goos d ctx name flag perm) w
  = (Returned (None, Some ErrPermission), (sys_Stat h (Dir.resolve goos d ctx name) w).2,
     [SysStat (Dir.resolve goos d ctx name)]).
Proof.
  intros Hres Hint Hdir Hl Hr. apply String.eqb_neq in Hres.
  unfold Dir.OpenFile. rewrite Hres, Hint. simpl.
  destruct (sys_Stat h _ w) as [[stat err] w']. simpl in *.
  by rewrite Hdir, Hl, Hr.
Qed.

(** C8. For a name that passes the first test: when the context is
    authenticated and the user's policy declares a subdirectory, [resolve]
    joins the cleaned path onto root/subdir; when the context is not
    authenticated, or the user has no entry, or the entry declares no
    subdirectory, it joins the cleaned path onto the root. *)
Theorem resolve_joins_onto_base (goos : GOOS) (d : Dir.t) (ctx : Context) (name : string) :
  unsafe_name goos name = false ->
  let cleaned := filepath_FromSlash goos (path_Clean ("/" +:+ name)) in
  (forall user userInfo subdir,
      authenticated_as ctx = Some user ->
      Config.Users (Dir.Config d) !! user = Some userInfo ->
      UserInfo.Subdir userInfo = Some subdir ->
      Dir.resolve goos d ctx name
      = filepath_Join goos [filepath_Join goos [dir_of d; subdir]; cleaned]) /\
  (authenticated_as ctx = None \/
   (exists user,
       authenticated_as ctx = Some user /\
       (Config.Users (Dir.Config d) !! user = None \/
        exists userInfo,
          Config.Users (Dir.Config d) !! user = Some userInfo /\
          UserInfo.Subdir userInfo = None)) ->
   Dir.resolve goos d ctx name = filepath_Join goos [dir_of d; cleaned] /\
   Dir.resolve goos d ctx name = filepath_Join goos [root_of goos d; cleaned]).
Proof.
  intros Hsafe cleaned. rewrite filepath_Join_onto_root.
  rewrite (resolve_safe _ _ _ _ Hsafe). fold cleaned. unfold declared_subdir. split.
  - intros user userInfo subdir -> -> ->.
    rewrite filepath_Join_nested; [done|apply dir_of_not_empty].
  - intros [->|(user & -> & [->|(userInfo & -> & ->)])]; done.
Qed.

Lemma resolve_joins_onto_base_witness :
  Dir.resolve unix (serving "/data" {[ "alice"%string := alice_policy ]})
    (logged_in "alice") "/new"
  = filepath_Join unix [filepath_Join unix ["/data"%string; "alice-home"%string];
                        filepath_FromSlash unix (path_Clean ("/" +:+ "/new"))] /\
  Dir.resolve unix (serving "/data" {[ "alice"%string := alice_policy ]}) anonymous "/new"
  = filepath_Join unix ["/data"%string; filepath_FromSlash unix (path_Clean ("/" +:+ "/new"))].
Proof.
  split.
  - destruct (resolve_joins_onto_base unix
                (serving "/data" {[ "alice"%string := alice_policy ]})
                (logged_in "alice") "/new" eq_refl) as [Hsub _].
    apply (Hsub "alice"%string alice_policy "alice-home"%string); reflexivity.
  - destruct (resolve_joins_onto_base unix
                (serving "/data" {[ "alice"%string := alice_policy ]})
                anonymous "/new" eq_refl) as [_ Hroot].
    apply Hroot. left. reflexivity.
Defined.

(** ** The root is never handed to a delete or rename *)

(** C9. Whatever sequence of calls of the five operations is served, under
    whatever contexts and configuration and on whatever filesystem, no
    [os.RemoveAll] and no [os.Rename] it performs is given the configured
    root (as configured, or cleaned) as its path, source or target. *)
Theorem root_never_removed_or_renamed {W : Type} (h : Host W) (goos : GOOS) (d : Dir.t)
        (reqs : list Request) (w : W) :
  Forall (fun c => hits (root_of goos d) c = false /\
                   hits (Config.Dir (Dir.Config d)) c = false)
         (serve_all h goos d reqs w).2.
Proof.
  revert w. induction reqs as [|r reqs IH]; intros w; simpl; [done|].
  pose proof (calls_only_run _ h (serve goos d r) w (serve_spares_root goos d r)) as Hr.
  destruct (run h (serve goos d r) w) as [[o w1] tr1].
  specialize (IH w1). destruct (serve_all h goos d reqs w1) as [w2 tr2].
  simpl in *. apply Forall_app. by split.
Qed.

(** ** [UserDir] *)

(** C10. No operation of [UserDir] has a permission check: once [resolve]
    returns a non-empty path (for [RemoveAll] and [Rename], one that is not
    the base directory) the operation is the one call of the [os] function,
    its result passed on, for every context; so no operation returns
    [ErrPermission].  An authenticated context is rooted at [BaseDir]
    joined with the user name as given. *)
Theorem UserDir_has_no_permission_gate {W : Type} (h : Host W) (w : W) (goos : GOOS)
        (d : UserDir.t) (ctx : Context) :
  let resolved := UserDir.resolve goos d ctx in
  let base := filepath_Clean goos (UserDir.BaseDir d) in
  (forall name perm,
      resolved name <> ""%string ->
      run h (UserDir.Mkdir goos d ctx name perm) w
      = (Returned (SysErr <$> (sys_Mkdir h (resolved name) perm w).1),
         (sys_Mkdir h (resolved name) perm w).2,
         [SysMkdir (resolved name) perm])) /\
  (forall name flag perm,
      resolved name <> ""%string ->
      run h (UserDir.OpenFile goos d ctx name flag perm) w
      = (Returned match (sys_OpenFile h (resolved name) flag perm w).1 with
                  | (_, Some e) => (None, Some (SysErr e))
                  | (f, None) => (f, None)
                  end,
         (sys_OpenFile h (resolved name) flag perm w).2,
         [SysOpenFile (resolved name) flag perm])) /\
  (forall name,
      resolved name <> ""%string -> resolved name <> base ->
      run h (UserDir.RemoveAll goos d ctx name) w
      = (Returned (SysErr <$> (sys_RemoveAll h (resolved name) w).1),
         (sys_RemoveAll h (resolved name) w).2,
         [SysRemoveAll (resolved name)])) /\
  (forall oldName newName,
      resolved oldName <> ""%string -> resolved newName <> ""%string ->
      resolved oldName <> base -> resolved newName <> base ->
      run h (UserDir.Rename goos d ctx oldName newName) w
      = (Returned (SysErr <$> (sys_Rename h (resolved oldName) (resolved newName) w).1),
         (sys_Rename h (resolved oldName) (resolved newName) w).2,
         [SysRename (resolved oldName) (resolved newName)])) /\
  (forall name,
      resolved name <> ""%string ->
      run h (UserDir.Stat goos d ctx name) w
      = (Returned ((sys_Stat h (resolved name) w).1.1,
                   SysErr <$> (sys_Stat h (resolved name) w).1.2),
         (sys_Stat h (resolved name) w).2,
         [SysStat (resolved name)])) /\
  (forall name perm,
      (run h (UserDir.Mkdir goos d ctx name perm) w).1.1 <> Returned (Some ErrPermission)) /\
  (forall name flag perm f,
      (run h (UserDir.OpenFile goos d ctx name flag perm) w).1.1
      <> Returned (f, Some ErrPermission)) /\
  (forall name,
      (run h (UserDir.RemoveAll goos d ctx name) w).1.1 <> Returned (Some ErrPermission)) /\
  (forall oldName newName,
      (run h (UserDir.Rename goos d ctx oldName newName) w).1.1
      <> Returned (Some ErrPermission)) /\
  (forall name fi,
      (run h (UserDir.Stat goos d ctx name) w).1.1 <> Returned (fi, Some ErrPermission)) /\
  (forall name authInfo,
      unsafe_name goos name = false ->
      auth_FromContext ctx = Some authInfo ->
      auth.Authenticated authInfo = true ->
      resolved name
      = filepath_Join goos
          [if String.eqb (UserDir.BaseDir d) "" then "."%string else UserDir.BaseDir d;
           auth.Username authInfo;
           filepath_FromSlash goos (path_Clean ("/" +:+ name))]).
Proof.
  intros resolved base. split_and!.
  - intros name perm Hres. apply String.eqb_neq in Hres.
    unfold UserDir.Mkdir. fold (resolved name). rewrite Hres. simpl.
    by destruct (sys_Mkdir h (resolved name) perm w).
  - intros name flag perm Hres. apply String.eqb_neq in Hres.
    unfold UserDir.OpenFile. fold (resolved name). rewrite Hres. simpl.
    by destruct (sys_OpenFile h (resolved name) flag perm w) as [[f [e|]] w'].
  - intros name Hres Hbase. apply String.eqb_neq in Hres, Hbase.
    unfold UserDir.RemoveAll. fold (resolved name). fold base. rewrite Hres, Hbase. simpl.
    by destruct (sys_RemoveAll h (resolved name) w).
  - intros oldName newName Ho Hn Hbo Hbn.
    apply not_eq_sym in Hbo, Hbn. apply String.eqb_neq in Ho, Hn, Hbo, Hbn.
    unfold UserDir.Rename. fold (resolved oldName). fold (resolved newName). fold base.
    rewrite Ho, Hn, Hbo, Hbn. simpl.
    by destruct (sys_Rename h (resolved oldName) (resolved newName) w).
  - intros name Hres. apply String.eqb_neq in Hres.
    unfold UserDir.Stat. fold (resolved name). rewrite Hres. simpl.
    by destruct (sys_Stat h (resolved name) w) as [[fi err] w'].
  - intros name perm. unfold UserDir.Mkdir. destruct (String.eqb _ _); [done|]. simpl.
    by destruct (sys_Mkdir h _ perm w) as [[e|] w'].
  - intros name flag perm f. unfold UserDir.OpenFile. destruct (String.eqb _ _); [done|]. simpl.
    by destruct (sys_OpenFile h _ flag perm w) as [[f' [e|]] w'].
  - intros name. unfold UserDir.RemoveAll. destruct (String.eqb _ _); [done|].
    destruct (String.eqb _ _); [done|]. simpl.
    by destruct (sys_RemoveAll h _ w) as [[e|] w'].
  - intros oldName newName. unfold UserDir.Rename. destruct (String.eqb _ _); [done|].
    destruct (String.eqb _ _); [done|]. destruct (_ || _); [done|]. simpl.
    by destruct (sys_Rename h _ _ w) as [[e|] w'].
  - intros name fi. unfold UserDir.Stat. destruct (String.eqb _ _); [done|]. simpl.
    by destruct (sys_Stat h _ w) as [[fi' [e|]] w'].
  - intros name authInfo Hsafe Hctx Hauth. unfold resolved, UserDir.resolve.
    by rewrite Hsafe, Hctx, Hauth.
Qed.

Lemma UserDir_has_no_permission_gate_witness :
  run mem_host
    (UserDir.Mkdir unix {| UserDir.BaseDir := "/srv" |} (logged_in "carol") "/new" 493%Z) ∅
  = (Returned None, {[ "/srv/carol/new"%string := true ]}, [SysMkdir "/srv/carol/new" 493%Z]).
Proof.
  destruct (UserDir_has_no_permission_gate mem_host ∅ unix {| UserDir.BaseDir := "/srv" |}
              (logged_in "carol")) as [Hmkdir _].
  rewrite (Hmkdir "/new"%string 493%Z); [vm_compute; reflexivity|].
  vm_compute. discriminate.
Defined.

(** * Beyond the claims *)

Section MoreCleanTheory.
Variable sep : ascii.
Variable is_sep : ascii -> bool.
Hypothesis sep_is_sep : is_sep sep = true.
Hypothesis dot_not_sep : is_sep dot = false.

Lemma finish_inj rooted S1 S2 :
  well_formed is_sep rooted S1 -> well_formed is_sep rooted S2 ->
  finish sep rooted S1 = finish sep rooted S2 -> S1 = S2.
Proof.
  intros H1 H2 Heq.
  rewrite <- (reread sep is_sep sep_is_sep dot_not_sep rooted S1 H1).
  rewrite <- (reread sep is_sep sep_is_sep dot_not_sep rooted S2 H2).
  by rewrite Heq.
Qed.

Lemma push_fields_nosep rooted e S :
  Forall (fun c => is_sep c = false) e ->
  push_fields is_sep rooted e S = push_element rooted S e.
Proof. intros He. unfold push_fields. by rewrite fields_nosep. Qed.

Lemma push_fields_nil rooted S : push_fields is_sep rooted [] S = S.
Proof. done. Qed.

Lemma push_fields_trailing rooted p s S :
  is_sep s = true -> push_fields is_sep rooted (p ++ [s]) S = push_fields is_sep rooted p S.
Proof. intros Hs. by rewrite push_fields_app. Qed.

Lemma push_fields_leading rooted p s S :
  is_sep s = true -> push_fields is_sep rooted (s :: p) S = push_fields is_sep rooted p S.
Proof. intros Hs. unfold push_fields. simpl. by rewrite Hs. Qed.

(** The fields of a path that is plain elements joined by any separator. *)
Lemma fields_join_sep s es :
  is_sep s = true ->
  Forall (Forall (fun c => is_sep c = false)) es -> es <> [] ->
  fields is_sep (join s es) = es.
Proof.
  intros Hs. induction 1 as [|e es He Hes IH]; [done|]. intros _.
  destruct es as [|e' es].
  - simpl. rewrite app_nil_r. by apply fields_nosep.
  - change (join s (e :: e' :: es)) with (e ++ s :: join s (e' :: es)).
    rewrite fields_app_sep by done. rewrite IH by done. by rewrite fields_nosep.
Qed.
End MoreCleanTheory.

(** ** The stack behind a resolved path *)

Lemma plain_slash_to_os goos e :
  plain is_slash e ->
  Forall (fun c => c <> Separator goos \/ c = slash) e ->
  plain (IsPathSeparator goos) e.
Proof.
  intros (H1 & H2 & H3 & H4) Hs. split_and!; [done..|].
  apply Forall_forall. intros c Hc. rewrite Forall_forall in H4, Hs.
  specialize (H4 _ Hc). specialize (Hs _ Hc).
  apply not_true_is_false. intros Ht. apply IsPathSeparator_spec in Ht as [-> | ->].
  - done.
  - destruct Hs as [?|Heq]; [done|]. by rewrite Heq in H4.
Qed.

Lemma plain_os_to_slash goos e : plain (IsPathSeparator goos) e -> plain is_slash e.
Proof.
  intros (H1 & H2 & H3 & H4). split_and!; [done..|].
  eapply Forall_impl; [exact H4|]. intros c Hc. simpl in Hc.
  destruct goos; simpl in Hc; [done|]. by apply orb_false_iff in Hc as [_ ?].
Qed.

(** The virtual path of a name that passes the first test of [resolve]:
    its stack holds plain elements only, and the cleaned path is the stack
    written out, with slashes and with the platform's separator. *)
Lemma name_stack_spec goos name :
  unsafe_name goos name = false ->
  Forall (plain (IsPathSeparator goos)) (name_stack name) /\
  well_formed is_slash true (name_stack name) /\
  bytes (path_Clean ("/" +:+ name)) = finish slash true (name_stack name) /\
  bytes (path_Clean ("/" +:+ name)) = slash :: join slash (rev (name_stack name)) /\
  bytes (filepath_FromSlash goos (path_Clean ("/" +:+ name)))
  = Separator goos :: join (Separator goos) (rev (name_stack name)).
Proof.
  intros Hsafe. unfold path_Clean, name_stack.
  change (bytes ("/" +:+ name)) with (slash :: bytes name).
  destruct (clean_bytes_spec slash is_slash slash_is_sep dot_not_slash (slash :: bytes name))
    as [Hc Hwf].
  change (absolute is_slash (slash :: bytes name)) with true in *.
  set (S := push_fields is_slash true (slash :: bytes name) []) in *.
  assert (Forall (plain is_slash) S) as Hpl.
  { destruct Hwf as (ns & k & HS & Hns & Hk). rewrite (Hk eq_refl) in HS.
    simpl in HS. rewrite app_nil_r in HS. by rewrite HS. }
  assert (finish slash true S = slash :: join slash (rev S)) as Hfin.
  { destruct S as [|e S'] eqn:HS; [done|].
    rewrite finish_cons; [done|]. apply Forall_cons in Hpl as [He _]. by destruct He. }
  assert (forall e c, e ∈ S -> c ∈ e -> c ∈ bytes name /\ c <> slash) as Hfrom.
  { intros e c He Hce. apply push_fields_from in He as [He|He]; [|by apply elem_of_nil in He].
    destruct (field_in_path _ _ _ _ He Hce) as [Hin Hns]. split.
    - apply elem_of_cons in Hin as [->|Hin]; [done|done].
    - intros ->. done. }
  assert (Forall (plain (IsPathSeparator goos)) S) as Hplain.
  { apply Forall_forall. intros e He. rewrite Forall_forall in Hpl.
    apply plain_slash_to_os; [by apply Hpl|].
    apply Forall_forall. intros c Hce. destruct (Hfrom _ _ He Hce) as [Hin Hns].
    destruct (unsafe_name_false _ _ Hsafe _ Hin) as [_ Hs].
    destruct (decide (c = Separator goos)) as [Heq|]; [right; auto|by left]. }
  rewrite bytes_str, Hc, Hfin. split_and!; [done..|].
  unfold filepath_FromSlash. destruct goos; [by rewrite bytes_str|].
  rewrite !bytes_str. cbn [map].
  change (is_slash slash) with true. cbn iota. f_equal.
  apply (map_join (fun c => if is_slash c then Separator windows else c) slash).
  apply Forall_forall. intros e He. apply Forall_forall. intros c Hce.
  apply list_elem_of_In, in_rev, list_elem_of_In in He.
  destruct (Hfrom _ _ He Hce) as [_ Hns].
  unfold is_slash. by apply Ascii.eqb_neq in Hns as ->.
Qed.

(** Cleaning [a], a separator and the cleaned name gives the stack of [a]
    with the name's stack on top. *)
Lemma joined_stack goos a name :
  a <> [] -> unsafe_name goos name = false ->
  let r := absolute (IsPathSeparator goos) a in
  Lexical.clean_bytes (Separator goos) (IsPathSeparator goos)
    (a ++ Separator goos :: bytes (filepath_FromSlash goos (path_Clean ("/" +:+ name))))
  = finish (Separator goos) r (name_stack name ++ base_stack goos a) /\
  well_formed (IsPathSeparator goos) r (name_stack name ++ base_stack goos a) /\
  Lexical.clean_bytes (Separator goos) (IsPathSeparator goos) a
  = finish (Separator goos) r (base_stack goos a) /\
  well_formed (IsPathSeparator goos) r (base_stack goos a).
Proof.
  intros Ha Hsafe r.
  destruct (name_stack_spec goos name Hsafe) as (Hpl & _ & _ & _ & ->).
  assert (Forall (plain (IsPathSeparator goos)) (rev (name_stack name))) as Hrev.
  { apply Forall_forall. intros e He. apply list_elem_of_In, in_rev, list_elem_of_In in He.
    rewrite Forall_forall in Hpl. by apply Hpl. }
  destruct (clean_bytes_under _ _ (Separator_is_sep goos) (dot_not_Separator goos)
              a _ Ha Hrev) as [Hc Hwf].
  rewrite rev_involutive in Hc, Hwf.
  destruct (clean_bytes_spec _ _ (Separator_is_sep goos) (dot_not_Separator goos) a)
    as [Hb Hwfb].
  done.
Qed.

Lemma base_bytes_not_nil goos d ctx : base_bytes goos d ctx <> [].
Proof.
  unfold base_bytes. pose proof (dir_of_not_empty d) as Hd.
  rewrite <- bytes_nil in Hd.
  destruct (declared_subdir d ctx); [|done]. by destruct (bytes (dir_of d)).
Qed.

Lemma base_of_bytes goos d ctx :
  bytes (base_of goos d ctx)
  = Lexical.clean_bytes (Separator goos) (IsPathSeparator goos) (base_bytes goos d ctx).
Proof.
  unfold base_of, base_bytes. pose proof (dir_of_not_empty d) as Hd.
  destruct (declared_subdir d ctx) as [subdir|].
  - by apply filepath_Join_two.
  - rewrite root_of_dir_of. cbn [filepath_Join strings_Join].
    apply String.eqb_neq in Hd. rewrite Hd. apply filepath_Clean_bytes.
Qed.

Lemma resolve_bytes goos d ctx name :
  unsafe_name goos name = false ->
  bytes (Dir.resolve goos d ctx name)
  = Lexical.clean_bytes (Separator goos) (IsPathSeparator goos)
      (base_bytes goos d ctx ++
       Separator goos :: bytes (filepath_FromSlash goos (path_Clean ("/" +:+ name)))).
Proof.
  intros Hsafe. rewrite resolve_safe by done. unfold base_bytes.
  pose proof (dir_of_not_empty d) as Hd.
  destruct (declared_subdir d ctx) as [subdir|].
  - by apply filepath_Join_three.
  - by apply filepath_Join_two.
Qed.

(** A resolved path is the base's stack under the name's stack. *)
Lemma resolve_stack goos d ctx name :
  unsafe_name goos name = false ->
  let a := base_bytes goos d ctx in
  let r := absolute (IsPathSeparator goos) a in
  bytes (Dir.resolve goos d ctx name)
  = finish (Separator goos) r (name_stack name ++ base_stack goos a) /\
  well_formed (IsPathSeparator goos) r (name_stack name ++ base_stack goos a) /\
  bytes (base_of goos d ctx) = finish (Separator goos) r (base_stack goos a) /\
  well_formed (IsPathSeparator goos) r (base_stack goos a).
Proof.
  intros Hsafe a r. rewrite resolve_bytes, base_of_bytes by done.
  apply joined_stack; [apply base_bytes_not_nil|done].
Qed.

(** Two names resolve to the same path exactly when they have the same
    stack, that is the same cleaned virtual path. *)
Lemma name_stack_Clean goos n1 n2 :
  unsafe_name goos n1 = false -> unsafe_name goos n2 = false ->
  name_stack n1 = name_stack n2 <-> path_Clean ("/" +:+ n1) = path_Clean ("/" +:+ n2).
Proof.
  intros H1 H2.
  destruct (name_stack_spec goos n1 H1) as (_ & Hw1 & Hf1 & _).
  destruct (name_stack_spec goos n2 H2) as (_ & Hw2 & Hf2 & _).
  split.
  - intros Heq. apply bytes_inj. by rewrite Hf1, Hf2, Heq.
  - intros Heq. apply (finish_inj slash is_slash slash_is_sep dot_not_slash true); [done..|].
    by rewrite <- Hf1, <- Hf2, Heq.
Qed.

Lemma resolve_eq_stack goos d ctx n1 n2 :
  unsafe_name goos n1 = false -> unsafe_name goos n2 = false ->
  Dir.resolve goos d ctx n1 = Dir.resolve goos d ctx n2 <-> name_stack n1 = name_stack n2.
Proof.
  intros H1 H2.
  destruct (resolve_stack goos d ctx n1 H1) as (Hb1 & Hw1 & _).
  destruct (resolve_stack goos d ctx n2 H2) as (Hb2 & Hw2 & _).
  split.
  - intros Heq. rewrite Heq in Hb1. rewrite Hb1 in Hb2.
    apply (finish_inj _ _ (Separator_is_sep goos) (dot_not_Separator goos)) in Hb2; [|done..].
    by apply app_inv_tail in Hb2.
  - intros Heq. apply bytes_inj. by rewrite Hb1, Hb2, Heq.
Qed.

(** ** Names and their stacks *)

Lemma contains_byte_app c s t :
  contains_byte c (s +:+ t) = contains_byte c s || contains_byte c t.
Proof. unfold contains_byte. by rewrite bytes_app, existsb_app. Qed.

Lemma unsafe_name_app goos s t :
  unsafe_name goos (s +:+ t) = unsafe_name goos s || unsafe_name goos t.
Proof.
  unfold unsafe_name. rewrite !contains_byte_app.
  destruct (negb _), (contains_byte (Separator goos) s), (contains_byte (Separator goos) t),
    (contains_byte NUL s), (contains_byte NUL t); done.
Qed.

Lemma unsafe_name_slashes goos : unsafe_name goos "/" = false /\ unsafe_name goos "../" = false.
Proof. by destruct goos. Qed.

Lemma unsafe_name_empty goos : unsafe_name goos "" = false.
Proof. by destruct goos. Qed.

(** Names with the same stack, both passing or both failing the first
    test, resolve alike. *)
Lemma resolve_same_stack goos d ctx n1 n2 :
  unsafe_name goos n1 = unsafe_name goos n2 ->
  name_stack n1 = name_stack n2 ->
  Dir.resolve goos d ctx n1 = Dir.resolve goos d ctx n2.
Proof.
  intros Hu Hs. destruct (unsafe_name goos n2) eqn:H2.
  - by rewrite !resolve_unsafe.
  - by apply resolve_eq_stack.
Qed.

Lemma name_stack_app s t :
  name_stack (s +:+ "/" +:+ t) = push_fields is_slash true (bytes t) (name_stack s).
Proof.
  unfold name_stack. rewrite !bytes_app.
  change (bytes "/") with [slash]. simpl app.
  by rewrite (app_comm_cons (bytes s) (slash :: bytes t) slash), push_fields_app.
Qed.

Lemma name_stack_leading_slash name : name_stack ("/" +:+ name) = name_stack name.
Proof. done. Qed.

Lemma name_stack_leading_dotdot name : name_stack ("../" +:+ name) = name_stack name.
Proof. done. Qed.

Lemma name_stack_trailing_slash name : name_stack (name +:+ "/") = name_stack name.
Proof.
  unfold name_stack. rewrite bytes_app. change (bytes "/") with [slash].
  by rewrite (app_comm_cons (bytes name) [slash] slash), push_fields_trailing.
Qed.

Lemma name_stack_bytes name e c : e ∈ name_stack name -> c ∈ e -> c ∈ bytes name.
Proof.
  intros He Hc. apply push_fields_from in He as [He|He]; [|by apply elem_of_nil in He].
  destruct (field_in_path _ _ _ _ He Hc) as [Hin Hns].
  by apply elem_of_cons in Hin as [->|Hin].
Qed.

(** A name whose rooted form is already clean is its stack joined by
    slashes. *)
Lemma clean_name_bytes goos e :
  unsafe_name goos e = false ->
  path_Clean ("/" +:+ e) = ("/" +:+ e)%string ->
  bytes e = join slash (rev (name_stack e)).
Proof.
  intros He Hclean. destruct (name_stack_spec goos e He) as (_ & _ & _ & Hb & _).
  rewrite Hclean in Hb. change (bytes ("/" +:+ e)) with (slash :: bytes e) in Hb.
  by injection Hb.
Qed.

(** Pushing the fields of plain elements joined by slashes puts them on
    the stack, under either reading of separators. *)
Lemma push_joined is_sep rooted es S :
  is_sep slash = true ->
  Forall (plain is_sep) es ->
  push_fields is_sep rooted (join slash es) S = rev es ++ S.
Proof.
  intros Hs Hes. destruct es as [|e es]; [done|].
  unfold push_fields. rewrite fields_join_sep; [|done| |done].
  - by apply (push_plain_fields is_sep).
  - eapply Forall_impl; [exact Hes|]. by intros x (_ & _ & _ & ?).
Qed.

Lemma push_clean_name goos e S :
  unsafe_name goos e = false ->
  path_Clean ("/" +:+ e) = ("/" +:+ e)%string ->
  push_fields is_slash true (bytes e) S = name_stack e ++ S /\
  forall rooted S',
    push_fields (IsPathSeparator goos) rooted (bytes e) S' = name_stack e ++ S'.
Proof.
  intros He Hclean. rewrite (clean_name_bytes goos e He Hclean).
  destruct (name_stack_spec goos e He) as (Hpl & _).
  assert (Forall (plain (IsPathSeparator goos)) (rev (name_stack e))) as Hrev.
  { apply Forall_forall. intros x Hx. apply list_elem_of_In, in_rev, list_elem_of_In in Hx.
    rewrite Forall_forall in Hpl. by apply Hpl. }
  split.
  - rewrite push_joined, rev_involutive; [done|done|].
    eapply Forall_impl; [exact Hrev|]. apply plain_os_to_slash.
  - intros rooted S'. rewrite push_joined, rev_involutive; [done| |done].
    by destruct goos.
Qed.

Lemma unsafe_name_bytes goos s :
  (forall c, c ∈ bytes s -> c <> NUL /\ (c = Separator goos -> c = slash)) ->
  unsafe_name goos s = false.
Proof.
  intros H. unfold unsafe_name. apply orb_false_iff. split.
  - destruct goos; [done|]. simpl. apply contains_byte_false.
    intros x Hx ->. by destruct (H _ Hx) as [_ Hs]; specialize (Hs eq_refl).
  - apply contains_byte_false. intros x Hx. by destruct (H _ Hx).
Qed.

Lemma join_bytes s es c : c ∈ join s es -> c = s \/ exists e, e ∈ es /\ c ∈ e.
Proof.
  induction es as [|e es IH]; intros Hc; [by apply elem_of_nil in Hc|].
  simpl in Hc. apply elem_of_app in Hc as [Hc|Hc].
  - right. exists e. split; [by left|done].
  - destruct es as [|e' es]; [by apply elem_of_nil in Hc|].
    apply elem_of_cons in Hc as [->|Hc]; [by left|].
    destruct (IH Hc) as [?|(x & Hx & Hcx)]; [by left|].
    right. exists x. split; [by right|done].
Qed.

Lemma resolve_empty_name goos d ctx : Dir.resolve goos d ctx "" = base_of goos d ctx.
Proof.
  destruct (resolve_stack goos d ctx "" (unsafe_name_empty goos)) as (Hr & _ & Hb & _).
  apply bytes_inj. by rewrite Hr, Hb.
Qed.

Lemma cleaned_name_is_safe goos name :
  unsafe_name goos name = false ->
  unsafe_name goos (path_Clean ("/" +:+ name)) = false /\
  name_stack (path_Clean ("/" +:+ name)) = name_stack name.
Proof.
  intros Hsafe. destruct (name_stack_spec goos name Hsafe) as (Hpl & _ & _ & Hb & _).
  split.
  - apply unsafe_name_bytes. intros c Hc. rewrite Hb in Hc.
    apply elem_of_cons in Hc as [->|Hc]; [by destruct goos|].
    apply join_bytes in Hc as [->|(e & He & Hc)]; [by destruct goos|].
    apply list_elem_of_In, in_rev, list_elem_of_In in He.
    apply (unsafe_name_false goos name Hsafe). by eapply name_stack_bytes.
  - unfold name_stack at 1. rewrite Hb.
    rewrite !(push_fields_leading is_slash true _ slash) by done.
    rewrite push_joined, rev_involutive, app_nil_r; [done|done|].
    apply Forall_forall. intros x Hx. apply list_elem_of_In, in_rev, list_elem_of_In in Hx.
    rewrite Forall_forall in Hpl. by eapply plain_os_to_slash, Hpl.
Qed.

Lemma resolve_base_iff_cleaned goos d ctx name :
  unsafe_name goos name = false ->
  Dir.resolve goos d ctx name = base_of goos d ctx
  <-> path_Clean ("/" +:+ name) = "/"%string.
Proof.
  intros Hsafe. rewrite <- resolve_empty_name.
  rewrite resolve_eq_stack by (done || apply unsafe_name_empty).
  by rewrite (name_stack_Clean goos) by (done || apply unsafe_name_empty).
Qed.

(** * Further properties of [Dir.resolve] *)

(** X1. Two names that pass the first test resolve, for the same context,
    to the same physical path exactly when their cleaned virtual paths are
    equal: no two distinct virtual paths share a physical path. *)
Theorem resolve_separates_names (goos : GOOS) (d : Dir.t) (ctx : Context) (n1 n2 : string) :
  unsafe_name goos n1 = false ->
  unsafe_name goos n2 = false ->
  Dir.resolve goos d ctx n1 = Dir.resolve goos d ctx n2
  <-> path_Clean ("/" +:+ n1) = path_Clean ("/" +:+ n2).
Proof.
  intros H1 H2. by rewrite resolve_eq_stack, name_stack_Clean.
Qed.

Lemma resolve_separates_names_witness :
  Dir.resolve unix (serving "/data" {[ "alice"%string := alice_policy ]})
    (logged_in "alice") "a/./b/../c"
  = Dir.resolve unix (serving "/data" {[ "alice"%string := alice_policy ]})
      (logged_in "alice") "//a/c/".
Proof.
  apply (resolve_separates_names unix (serving "/data" {[ "alice"%string := alice_policy ]})
           (logged_in "alice") "a/./b/../c" "//a/c/"); reflexivity.
Defined.

(** X2. A name that passes the first test resolves to the base itself (the
    root, or root/subdir) exactly when its cleaned virtual path is ["/"]. *)
Theorem resolve_to_base_iff (goos : GOOS) (d : Dir.t) (ctx : Context) (name : string) :
  unsafe_name goos name = false ->
  Dir.resolve goos d ctx name = base_of goos d ctx
  <-> path_Clean ("/" +:+ name) = "/"%string.
Proof. apply resolve_base_iff_cleaned. Qed.

Lemma resolve_to_base_iff_witness :
  Dir.resolve unix (serving "/data" {[ "alice"%string := alice_policy ]})
    (logged_in "alice") "/x/../."
  = base_of unix (serving "/data" {[ "alice"%string := alice_policy ]}) (logged_in "alice").
Proof.
  apply (resolve_to_base_iff unix (serving "/data" {[ "alice"%string := alice_policy ]})
           (logged_in "alice") "/x/../."); reflexivity.
Defined.

(** X3. [Dir.resolve] does not see a leading or a trailing slash of the
    name: with or without it the result is the same, rejection included. *)
Theorem resolve_ignores_outer_slashes (goos : GOOS) (d : Dir.t) (ctx : Context)
        (name : string) :
  Dir.resolve goos d ctx ("/" +:+ name) = Dir.resolve goos d ctx name /\
  Dir.resolve goos d ctx (name +:+ "/") = Dir.resolve goos d ctx name.
Proof.
  destruct (unsafe_name_slashes goos) as [Hs _]. split.
  - apply resolve_same_stack; [|apply name_stack_leading_slash].
    by rewrite unsafe_name_app, Hs.
  - apply resolve_same_stack; [|apply name_stack_trailing_slash].
    by rewrite unsafe_name_app, Hs, orb_false_r.
Qed.

(** X4. A [..] at the head of the name, which would climb above the
    virtual root, is dropped: the name resolves as without it. *)
Theorem resolve_drops_leading_dotdot (goos : GOOS) (d : Dir.t) (ctx : Context)
        (name : string) :
  Dir.resolve goos d ctx ("../" +:+ name) = Dir.resolve goos d ctx name.
Proof.
  destruct (unsafe_name_slashes goos) as [_ Hs].
  apply resolve_same_stack; [|apply name_stack_leading_dotdot].
  by rewrite unsafe_name_app, Hs.
Qed.

(** X5. Resolution follows the hierarchy: for a name and a clean relative
    path [e] that both pass the first test, resolving [name/e] is joining
    [e] onto the resolved [name]. *)
Theorem resolve_of_child (goos : GOOS) (d : Dir.t) (ctx : Context) (name e : string) :
  unsafe_name goos name = false ->
  unsafe_name goos e = false ->
  path_Clean ("/" +:+ e) = ("/" +:+ e)%string ->
  Dir.resolve goos d ctx (name +:+ "/" +:+ e)
  = filepath_Join goos [Dir.resolve goos d ctx name; e].
Proof.
  intros Hn He Hclean.
  assert (unsafe_name goos (name +:+ "/" +:+ e) = false) as Hne.
  { rewrite !unsafe_name_app, Hn, He. by destruct goos. }
  destruct (push_clean_name goos e (name_stack name) He Hclean) as [Hpush Hpush'].
  destruct (resolve_stack goos d ctx _ Hne) as (Hr & _).
  destruct (resolve_stack goos d ctx name Hn) as (Hrn & Hwf & _).
  rewrite name_stack_app, Hpush in Hr.
  apply bytes_inj. rewrite Hr.
  rewrite filepath_Join_two by (by rewrite resolve_empty_iff, Hn).
  destruct (clean_bytes_spec _ _ (Separator_is_sep goos) (dot_not_Separator goos)
              (bytes (Dir.resolve goos d ctx name) ++ Separator goos :: bytes e)) as [-> _].
  assert (bytes (Dir.resolve goos d ctx name) <> []) as Hnn.
  { rewrite bytes_nil, resolve_empty_iff. by rewrite Hn. }
  rewrite absolute_app by done.
  rewrite push_fields_app by apply Separator_is_sep.
  rewrite Hrn.
  destruct (finish_elements _ _ (Separator_is_sep goos) (dot_not_Separator goos) _ _ Hwf)
    as [_ ->].
  rewrite (reread _ _ (Separator_is_sep goos) (dot_not_Separator goos)) by done.
  by rewrite Hpush', app_assoc.
Qed.

Lemma resolve_of_child_witness :
  Dir.resolve unix (serving "/data" {[ "alice"%string := alice_policy ]})
    (logged_in "alice") ("/docs/../notes" +:+ "/" +:+ "2024/a.txt")
  = filepath_Join unix
      [Dir.resolve unix (serving "/data" {[ "alice"%string := alice_policy ]})
         (logged_in "alice") "/docs/../notes"; "2024/a.txt"%string].
Proof.
  apply (resolve_of_child unix (serving "/data" {[ "alice"%string := alice_policy ]})
           (logged_in "alice") "/docs/../notes" "2024/a.txt"); reflexivity.
Defined.

(** X6. Resolving the cleaned form of a name gives what the name itself
    resolves to: cleaning a name first changes nothing. *)
Theorem resolve_of_cleaned_name (goos : GOOS) (d : Dir.t) (ctx : Context) (name : string) :
  unsafe_name goos name = false ->
  Dir.resolve goos d ctx (path_Clean ("/" +:+ name)) = Dir.resolve goos d ctx name.
Proof.
  intros Hsafe. destruct (cleaned_name_is_safe goos name Hsafe) as [Hc Hs].
  apply resolve_same_stack; [by rewrite Hc, Hsafe|done].
Qed.

Lemma resolve_of_cleaned_name_witness :
  Dir.resolve unix (serving "/data" ∅) anonymous (path_Clean ("/" +:+ "a/../b//c"))
  = Dir.resolve unix (serving "/data" ∅) anonymous "a/../b//c".
Proof.
  apply (resolve_of_cleaned_name unix (serving "/data" ∅) anonymous "a/../b//c").
  reflexivity.
Defined.

(** ** Every call stays within the base *)

Lemma serve_within_base goos d r :
  calls_only (within_base goos d (request_ctx r)) (serve goos d r).
Proof.
  assert (forall ctx name, Dir.resolve goos d ctx name <> ""%string ->
            forallb (lexically_within goos (base_of goos d ctx))
              [Dir.resolve goos d ctx name] = true) as Hone.
  { intros ctx name Hne. simpl. by rewrite resolve_within. }
  destruct r as [ctx name perm|ctx name flag perm|ctx name|ctx oldName newName|ctx name];
    (apply calls_only_bind; [|intros; exact I]); simpl request_ctx.
  - unfold Dir.Mkdir. walk ltac:(done || by apply Hone).
  - unfold Dir.OpenFile. walk ltac:(done || by apply Hone).
  - unfold Dir.RemoveAll. walk ltac:(done || by apply Hone).
  - unfold Dir.Rename.
    walk ltac:(done || (unfold within_base; simpl; by rewrite !resolve_within)).
  - unfold Dir.Stat. walk ltac:(done || by apply Hone).
Qed.

(** X7. Whatever a request does, every path it hands to the filesystem
    (to [os.Mkdir], [os.OpenFile], [os.RemoveAll], [os.Rename] or [os.Stat])
    lies lexically within the base of the request's context. *)
Theorem calls_stay_within_base {W : Type} (h : Host W) (goos : GOOS) (d : Dir.t)
        (r : Request) (w : W) :
  Forall (fun c => forallb (lexically_within goos (base_of goos d (request_ctx r)))
                     (call_paths c) = true)
         (run h (serve goos d r) w).2.
Proof. apply calls_only_run, serve_within_base. Qed.

(** ** When the root is refused *)

(** X8. For a context without declared subdirectory, [RemoveAll] returns
    [ErrInvalid] exactly for the names that pass the first test and whose
    cleaned virtual path is ["/"]. *)
Theorem RemoveAll_invalid_iff (goos : GOOS) (d : Dir.t) (ctx : Context) (name : string) :
  declared_subdir d ctx = None ->
  Dir.RemoveAll goos d ctx name = Ret (Some ErrInvalid)
  <-> unsafe_name goos name = false /\ path_Clean ("/" +:+ name) = "/"%string.
Proof.
  intros Hsub.
  assert (base_of goos d ctx = root_of goos d) as Hbase by (unfold base_of; by rewrite Hsub).
  unfold Dir.RemoveAll. fold (root_of goos d).
  destruct (unsafe_name goos name) eqn:Hsafe.
  { rewrite resolve_unsafe by done. simpl. split; [done|by intros []]. }
  rewrite <- (resolve_base_iff_cleaned goos d ctx name Hsafe), Hbase.
  destruct (String.eqb_spec (Dir.resolve goos d ctx name) "") as [He|_].
  { by apply resolve_empty_iff in He; rewrite Hsafe in He. }
  destruct (String.eqb_spec (Dir.resolve goos d ctx name) (root_of goos d)) as [|Hne].
  { done. }
  split; [|by intros []].
  destruct (hasDelete_cases ctx d) as [->|[[] ->]]; done.
Qed.

Lemma RemoveAll_invalid_iff_witness :
  Dir.RemoveAll unix (serving "/data" {[ "bob"%string := unrestricted ]})
    (logged_in "bob") "/a/../" = Ret (Some ErrInvalid).
Proof.
  apply (RemoveAll_invalid_iff unix (serving "/data" {[ "bob"%string := unrestricted ]})
           (logged_in "bob") "/a/../"); [reflexivity|].
  split; reflexivity.
Defined.

(** X9. The root of a user's subdirectory is not refused: when the
    context declares a subdirectory whose path is not the root, a
    [RemoveAll] of a name that cleans to ["/"], the delete check passing,
    calls [os.RemoveAll] on root/subdir itself. *)
Theorem subdir_root_is_removed (goos : GOOS) (d : Dir.t) (ctx : Context)
        (subdir name : string) :
  declared_subdir d ctx = Some subdir ->
  base_of goos d ctx <> root_of goos d ->
  unsafe_name goos name = false ->
  path_Clean ("/" +:+ name) = "/"%string ->
  Dir.hasDelete ctx d = Ret true ->
  exists k, Dir.RemoveAll goos d ctx name = os_RemoveAll (base_of goos d ctx) k.
Proof.
  intros Hsub Hbase Hsafe Hclean Hdel.
  apply (resolve_base_iff_cleaned goos d ctx name Hsafe) in Hclean.
  unfold Dir.RemoveAll. fold (root_of goos d). rewrite Hclean.
  destruct (String.eqb_spec (base_of goos d ctx) "") as [He|_].
  { rewrite <- Hclean in He. by apply resolve_empty_iff in He; rewrite Hsafe in He. }
  apply String.eqb_neq in Hbase. rewrite Hbase, Hdel. simpl. eauto.
Qed.

Lemma subdir_root_is_removed_witness :
  exists k,
    Dir.RemoveAll unix (serving "/data" {[ "alice"%string := alice_policy ]})
      (logged_in "alice") "/"
    = os_RemoveAll
        (base_of unix (serving "/data" {[ "alice"%string := alice_policy ]})
           (logged_in "alice")) k.
Proof.
  apply (subdir_root_is_removed unix (serving "/data" {[ "alice"%string := alice_policy ]})
           (logged_in "alice") "alice-home" "/").
  - reflexivity.
  - vm_compute. discriminate.
  - reflexivity.
  - reflexivity.
  - reflexivity.
Defined.

(** ** Outcomes *)

(** Unfold a request down to the calls, splitting on every test. *)
Ltac trace_cases h w :=
  repeat (cbn [bind negb orb run fst snd];
    match goal with
    | |- context [bind (Dir.hasRead ?c ?d) _] =>
        destruct (hasRead_cases c d) as [->|[[] ->]]
    | |- context [bind (Dir.hasWrite ?c ?d) _] =>
        destruct (hasWrite_cases c d) as [->|[[] ->]]
    | |- context [bind (Dir.hasDelete ?c ?d) _] =>
        destruct (hasDelete_cases c d) as [->|[[] ->]]
    | |- context [bind (Dir.hasList ?c ?d) _] =>
        destruct (hasList_cases c d) as [->|[[] ->]]
    | |- context [Dir.log_if ?c _ _] => unfold Dir.log_if; destruct c
    | |- context [sys_Mkdir h ?n ?p ?w'] => destruct (sys_Mkdir h n p w') as [[?|] ?]
    | |- context [sys_OpenFile h ?n ?f ?p ?w'] =>
        destruct (sys_OpenFile h n f p w') as [[? [?|]] ?]
    | |- context [sys_RemoveAll h ?n ?w'] => destruct (sys_RemoveAll h n w') as [[?|] ?]
    | |- context [sys_Rename h ?o ?n ?w'] => destruct (sys_Rename h o n w') as [[?|] ?]
    | |- context [sys_Stat h ?n ?w'] => destruct (sys_Stat h n w') as [[? [?|]] ?]
    | |- context [if ?b then _ else _] => destruct b eqn:?
    end).

(** X10. An error of the adapter's own ([ErrNotExist], [ErrPermission],
    [ErrInvalid]) is returned before anything is changed: no call has been
    made, except that [OpenFile] may have asked [os.Stat] about the
    target. *)
Theorem own_errors_precede_calls {W : Type} (h : Host W) (goos : GOOS) (d : Dir.t)
        (r : Request) (w : W) (e : error) :
  (run h (respond goos d r) w).1.1 = Returned (Some e) ->
  is_sentinel e = true ->
  (run h (respond goos d r) w).2 = [] \/
  exists ctx name flag perm,
    r = ReqOpenFile ctx name flag perm /\
    (run h (respond goos d r) w).2 = [SysStat (Dir.resolve goos d ctx name)].
Proof.
  destruct r as [ctx name perm|ctx name flag perm|ctx name|ctx oldName newName|ctx name];
    unfold respond.
  - unfold Dir.Mkdir. trace_cases h w; intros [= <-] Hs; try done; by left.
  - unfold Dir.OpenFile. trace_cases h w; intros [= <-] Hs; try done;
      solve [by left | right; eauto 10].
  - unfold Dir.RemoveAll. trace_cases h w; intros [= <-] Hs; try done; by left.
  - unfold Dir.Rename. trace_cases h w; intros [= <-] Hs; try done; by left.
  - unfold Dir.Stat. trace_cases h w; intros [= <-] Hs; try done; by left.
Qed.

Lemma own_errors_precede_calls_witness :
  (run mem_host
     (respond unix (serving "/data" {[ "eve"%string := list_denied ]})
        (ReqOpenFile (logged_in "eve") "/pub" 0%Z 0%Z))
     {[ "/data/pub"%string := true ]}).2 = [] \/
  exists ctx name flag perm,
    ReqOpenFile (logged_in "eve") "/pub" 0%Z 0%Z = ReqOpenFile ctx name flag perm /\
    (run mem_host
       (respond unix (serving "/data" {[ "eve"%string := list_denied ]})
          (ReqOpenFile (logged_in "eve") "/pub" 0%Z 0%Z))
       {[ "/data/pub"%string := true ]}).2
    = [SysStat (Dir.resolve unix (serving "/data" {[ "eve"%string := list_denied ]}) ctx name)].
Proof.
  apply (own_errors_precede_calls mem_host unix
           (serving "/data" {[ "eve"%string := list_denied ]})
           (ReqOpenFile (logged_in "eve") "/pub" 0%Z 0%Z)
           {[ "/data/pub"%string := true ]} ErrPermission).
  - vm_compute. reflexivity.
  - reflexivity.
Defined.

(** X11. The audit log records successes only, and all of them that are
    switched on: a request leaves its one record (path or paths, and the
    authenticated user name or [""]) exactly when it returns without error
    and its kind of record is enabled; [Stat] never logs. *)
Theorem audit_log_records_successes {W : Type} (h : Host W) (goos : GOOS) (d : Dir.t)
        (r : Request) (w : W) :
  filter (fun c => is_log c = true) (run h (respond goos d r) w).2
  = match (run h (respond goos d r) w).1.1, audit_record goos d r with
    | Returned None, Some record => [record]
    | _, _ => []
    end.
Proof.
  destruct r as [ctx name perm|ctx name flag perm|ctx name|ctx oldName newName|ctx name];
    unfold respond, audit_record.
  - unfold Dir.Mkdir. trace_cases h w; done.
  - unfold Dir.OpenFile. trace_cases h w; done.
  - unfold Dir.RemoveAll. trace_cases h w; done.
  - unfold Dir.Rename. trace_cases h w; done.
  - unfold Dir.Stat. trace_cases h w; done.
Qed.



(** * [UserDir] *)

Lemma user_dir_of_not_empty d : user_dir_of d <> ""%string.
Proof. unfold user_dir_of. by destruct (String.eqb_spec (UserDir.BaseDir d) ""). Qed.

Lemma UserDir_resolve_safe goos d ctx name :
  unsafe_name goos name = false ->
  UserDir.resolve goos d ctx name =
  match auth_authenticated_as ctx with
  | Some user =>
      filepath_Join goos
        [user_dir_of d; user; filepath_FromSlash goos (path_Clean ("/" +:+ name))]
  | None =>
      filepath_Join goos [user_dir_of d; filepath_FromSlash goos (path_Clean ("/" +:+ name))]
  end.
Proof.
  intros Hsafe. unfold UserDir.resolve, auth_authenticated_as, user_dir_of. rewrite Hsafe.
  destruct (auth_FromContext ctx) as [authInfo|]; [|done].
  by destruct (auth.Authenticated authInfo).
Qed.

Lemma UserDir_resolve_unsafe goos d ctx name :
  unsafe_name goos name = true -> UserDir.resolve goos d ctx name = ""%string.
Proof. intros H. unfold UserDir.resolve. by rewrite H. Qed.

Lemma UserDir_resolve_nonempty goos d ctx name :
  UserDir.resolve goos d ctx name <> ""%string -> unsafe_name goos name = false.
Proof.
  intros Hne. apply not_true_is_false. intros H.
  by apply UserDir_resolve_unsafe with (d := d) (ctx := ctx) in H.
Qed.


Lemma UserDir_resolve_is_clean goos d ctx name :
  UserDir.resolve goos d ctx name <> ""%string ->
  filepath_Clean goos (UserDir.resolve goos d ctx name) = UserDir.resolve goos d ctx name.
Proof.
  intros Hne. pose proof (UserDir_resolve_nonempty _ _ _ _ Hne) as Hsafe.
  rewrite UserDir_resolve_safe by done. pose proof (user_dir_of_not_empty d) as Hd.
  apply String.eqb_neq in Hd.
  destruct (auth_authenticated_as ctx); cbn [filepath_Join]; rewrite Hd;
    apply filepath_Clean_idempotent.
Qed.



(** X14. The paths the two adapters resolve to are clean: cleaning a
    non-empty result of [Dir.resolve] or of [UserDir.resolve] again leaves
    it as it is. *)
Theorem resolved_paths_are_clean (goos : GOOS) (d : Dir.t) (ud : UserDir.t)
        (ctx : Context) (name : string) :
  (Dir.resolve goos d ctx name <> ""%string ->
   filepath_Clean goos (Dir.resolve goos d ctx name) = Dir.resolve goos d ctx name) /\
  (UserDir.resolve goos ud ctx name <> ""%string ->
   filepath_Clean goos (UserDir.resolve goos ud ctx name) = UserDir.resolve goos ud ctx name).
Proof. split; [apply resolve_is_clean|apply UserDir_resolve_is_clean]. Qed.

Lemma resolved_paths_are_clean_witness :
  filepath_Clean unix
    (Dir.resolve unix (serving "data/../srv/" ∅) anonymous "a/./b")
  = Dir.resolve unix (serving "data/../srv/" ∅) anonymous "a/./b" /\
  filepath_Clean unix
    (UserDir.resolve unix {| UserDir.BaseDir := "data/../srv/" |} (logged_in "carol") "a/./b")
  = UserDir.resolve unix {| UserDir.BaseDir := "data/../srv/" |} (logged_in "carol") "a/./b".
Proof.
  destruct (resolved_paths_are_clean unix (serving "data/../srv/" ∅)
              {| UserDir.BaseDir := "data/../srv/" |} (logged_in "carol") "a/./b")
    as [Hd Hu].
  split.
  - assert (Dir.resolve unix (serving "data/../srv/" ∅) anonymous "a/./b"
            = Dir.resolve unix (serving "data/../srv/" ∅) (logged_in "carol") "a/./b") as ->
      by reflexivity.
    apply Hd. vm_compute. discriminate.
  - apply Hu. vm_compute. discriminate.
Defined.

(** X15. [UserDir] never hands its base directory, as configured or
    cleaned, to [os.RemoveAll] or [os.Rename]: whatever the context and the
    names, no call of [RemoveAll] or [Rename] deletes or renames it. *)
Theorem UserDir_spares_base {W : Type} (h : Host W) (goos : GOOS) (d : UserDir.t)
        (ctx : Context) (w : W) :
  let spared (c : Syscall) :=
    hits (filepath_Clean goos (UserDir.BaseDir d)) c = false /\
    hits (UserDir.BaseDir d) c = false in
  (forall name, Forall spared (run h (UserDir.RemoveAll goos d ctx name) w).2) /\
  (forall oldName newName,
      Forall spared (run h (UserDir.Rename goos d ctx oldName newName) w).2).
Proof.
  intros spared.
  assert (forall name,
            UserDir.resolve goos d ctx name <> ""%string ->
            UserDir.resolve goos d ctx name <> filepath_Clean goos (UserDir.BaseDir d) ->
            String.eqb (UserDir.resolve goos d ctx name)
              (filepath_Clean goos (UserDir.BaseDir d)) = false /\
            String.eqb (UserDir.resolve goos d ctx name) (UserDir.BaseDir d) = false) as Hnot.
  { intros name Hne Hroot. split; apply String.eqb_neq; [done|].
    intros Heq. apply Hroot. rewrite <- Heq. symmetry.
    by apply UserDir_resolve_is_clean. }
  split.
  - intros name. unfold UserDir.RemoveAll.
    destruct (String.eqb_spec (UserDir.resolve goos d ctx name) "") as [|Hne]; [done|].
    destruct (String.eqb_spec (UserDir.resolve goos d ctx name)
                (filepath_Clean goos (UserDir.BaseDir d))) as [|Hroot]; [done|].
    simpl. destruct (sys_RemoveAll h _ w) as [err w']. simpl.
    constructor; [|done]. by apply Hnot.
  - intros oldName newName. unfold UserDir.Rename.
    destruct (String.eqb_spec (UserDir.resolve goos d ctx oldName) "") as [|Ho]; [done|].
    destruct (String.eqb_spec (UserDir.resolve goos d ctx newName) "") as [|Hn]; [done|].
    destruct (String.eqb_spec (filepath_Clean goos (UserDir.BaseDir d))
                (UserDir.resolve goos d ctx oldName)) as [|Hro]; [done|].
    destruct (String.eqb_spec (filepath_Clean goos (UserDir.BaseDir d))
                (UserDir.resolve goos d ctx newName)) as [|Hrn]; [done|].
    simpl. destruct (sys_Rename h _ _ w) as [err w']. simpl.
    constructor; [|done].
    destruct (Hnot oldName) as [H1 H2]; [done|congruence|].
    destruct (Hnot newName) as [H3 H4]; [done|congruence|].
    unfold spared. simpl. by rewrite H1, H2, H3, H4.
Qed.

(** ** [Dir] without users is [UserDir] *)

(** X16. With no users configured, logging off and an unauthenticated
    request, [Dir] over a directory behaves as [UserDir] over the same
    directory: names resolve alike, and [Mkdir], [RemoveAll], [Rename],
    [Stat] and a write-only [OpenFile] do the same calls with the same
    results; an [OpenFile] that reads does the same after one [os.Stat] of
    the target. *)
Theorem open_access_Dir_is_UserDir {W : Type} (h : Host W) (w : W) (goos : GOOS)
        (d : Dir.t) (ud : UserDir.t) (ctx : Context) :
  Config.Users (Dir.Config d) = ∅ ->
  Config.Log (Dir.Config d) = no_logging ->
  UserDir.BaseDir ud = Config.Dir (Dir.Config d) ->
  authenticated_as ctx = None ->
  auth_authenticated_as ctx = None ->
  (forall name, Dir.resolve goos d ctx name = UserDir.resolve goos ud ctx name) /\
  (forall name perm,
      run h (Dir.Mkdir goos d ctx name perm) w = run h (UserDir.Mkdir goos ud ctx name perm) w) /\
  (forall name,
      run h (Dir.RemoveAll goos d ctx name) w = run h (UserDir.RemoveAll goos ud ctx name) w) /\
  (forall oldName newName,
      run h (Dir.Rename goos d ctx oldName newName) w
      = run h (UserDir.Rename goos ud ctx oldName newName) w) /\
  (forall name,
      run h (Dir.Stat goos d ctx name) w = run h (UserDir.Stat goos ud ctx name) w) /\
  (forall name flag perm,
      Z.land flag 3 <> 0%Z -> Z.land flag 3 <> O_RDWR ->
      run h (Dir.OpenFile goos d ctx name flag perm) w
      = run h (UserDir.OpenFile goos ud ctx name flag perm) w) /\
  (forall name flag perm,
      Z.land flag 3 = 0%Z \/ Z.land flag 3 = O_RDWR ->
      Dir.resolve goos d ctx name <> ""%string ->
      run h (Dir.OpenFile goos d ctx name flag perm) w
      = let '(_, w1) := sys_Stat h (Dir.resolve goos d ctx name) w in
        let '(o, w2, tr) := run h (UserDir.OpenFile goos ud ctx name flag perm) w1 in
        (o, w2, SysStat (Dir.resolve goos d ctx name) :: tr)).
Proof.
  intros Husers Hlog Hbase Hanon Hanon'.
  destruct (unauthenticated_checks ctx d Hanon) as (Hr & Hw & Hd & Hl).
  cbv zeta in *. rewrite Husers, map_size_empty in *. simpl in Hr, Hw, Hd, Hl.
  assert (forall name, Dir.resolve goos d ctx name = UserDir.resolve goos ud ctx name) as Hres.
  { intros name. unfold Dir.resolve, UserDir.resolve. rewrite Hbase.
    destruct (unsafe_name goos name); [done|].
    unfold authenticated_as in Hanon. unfold auth_authenticated_as in Hanon'.
    destruct (AuthFromContext ctx) as [a|]; [destruct (Authenticated a); [done|]|];
      destruct (auth_FromContext ctx) as [a'|]; try done;
      by destruct (auth.Authenticated a'). }
  split_and!; [done|..].
  - intros name perm. unfold Dir.Mkdir, UserDir.Mkdir. rewrite Hres, Hw, Hlog.
    destruct (String.eqb _ _); [done|]. simpl.
    by destruct (sys_Mkdir h _ perm w) as [[e|] w'].
  - intros name. unfold Dir.RemoveAll, UserDir.RemoveAll. rewrite Hres, Hd, Hlog, Hbase.
    destruct (String.eqb _ _); [done|]. destruct (String.eqb _ _); [done|]. simpl.
    by destruct (sys_RemoveAll h _ w) as [[e|] w'].
  - intros oldName newName. unfold Dir.Rename, UserDir.Rename.
    rewrite !Hres, Hw, Hlog, Hbase.
    destruct (String.eqb _ _); [done|]. destruct (String.eqb _ _); [done|]. simpl.
    destruct (_ || _); [done|]. simpl.
    by destruct (sys_Rename h _ _ w) as [[e|] w'].
  - intros name. unfold Dir.Stat, UserDir.Stat. rewrite Hres, Hl.
    by destruct (String.eqb _ _).
  - intros name flag perm H0 H2. unfold Dir.OpenFile, UserDir.OpenFile.
    rewrite Hres, Hw, Hlog. apply Z.eqb_neq in H0, H2. rewrite H0, H2.
    destruct (String.eqb _ _); [done|]. simpl.
    by destruct (sys_OpenFile h _ flag perm w) as [[f [e|]] w'].
  - intros name flag perm Hint Hne. unfold Dir.OpenFile, UserDir.OpenFile.
    rewrite <- !Hres. apply String.eqb_neq in Hne. rewrite Hne, Hw, Hr, Hl, Hlog.
    assert (((Z.land flag 3 =? 0)%Z || (Z.land flag 3 =? O_RDWR)%Z) = true) as ->.
    { destruct Hint as [-> | ->]; [done|]. by rewrite orb_true_r. }
    destruct (negb (Z.land flag 3 =? 0)%Z); simpl;
      destruct (sys_Stat h _ w) as [[stat err] w1]; simpl;
      destruct (is_dir stat); simpl;
      by destruct (sys_OpenFile h _ flag perm w1) as [[f [e|]] w'].
Qed.

Lemma open_access_Dir_is_UserDir_witness :
  run mem_host (Dir.Mkdir unix (serving "/data" ∅) anonymous "/new" 493%Z) ∅
  = run mem_host (UserDir.Mkdir unix {| UserDir.BaseDir := "/data" |} anonymous "/new" 493%Z) ∅.
Proof.
  destruct (open_access_Dir_is_UserDir mem_host ∅ unix (serving "/data" ∅)
              {| UserDir.BaseDir := "/data" |} anonymous) as (_ & Hmkdir & _);
    [reflexivity..|].
  apply Hmkdir.
Defined.

(** ** An empty subdirectory, an empty user name *)

Lemma filepath_Join_empty_middle goos dir x :
  dir <> ""%string ->
  filepath_Join goos [dir; ""%string; x] = filepath_Join goos [dir; x].
Proof.
  intros Hd. apply bytes_inj. rewrite filepath_Join_two, filepath_Join_three by done.
  change (bytes "") with (@nil ascii).
  assert (bytes dir <> []) as Hb by (by rewrite bytes_nil).
  rewrite <- app_assoc. simpl app.
  rewrite (proj1 (clean_bytes_spec _ _ (Separator_is_sep goos) (dot_not_Separator goos)
                    (bytes dir ++ _ :: _ :: bytes x))).
  rewrite (proj1 (clean_bytes_spec _ _ (Separator_is_sep goos) (dot_not_Separator goos)
                    (bytes dir ++ _ :: bytes x))).
  rewrite !absolute_app by done.
  rewrite !push_fields_app by apply Separator_is_sep.
  by rewrite push_fields_leading by apply Separator_is_sep.
Qed.

(** X17. An empty subdirectory is no subdirectory, and an empty user name
    no user directory: a user whose policy declares [""] resolves under
    [Dir] as an unauthenticated request does, and a request authenticated
    with the user name [""] resolves under [UserDir] into the base
    directory itself. *)
Theorem empty_subdir_is_root (goos : GOOS) (d : Dir.t) (ud : UserDir.t) (ctx : Context)
        (name : string) :
  (declared_subdir d ctx = Some ""%string ->
   Dir.resolve goos d ctx name = Dir.resolve goos d anonymous name) /\
  (auth_authenticated_as ctx = Some ""%string ->
   UserDir.resolve goos ud ctx name = UserDir.resolve goos ud anonymous name).
Proof.
  split; intros Hsub.
  - destruct (unsafe_name goos name) eqn:Hsafe; [by rewrite !resolve_unsafe|].
    rewrite !resolve_safe by done. rewrite Hsub. simpl.
    apply filepath_Join_empty_middle, dir_of_not_empty.
  - destruct (unsafe_name goos name) eqn:Hsafe; [by rewrite !UserDir_resolve_unsafe|].
    rewrite !UserDir_resolve_safe by done. rewrite Hsub. simpl.
    apply filepath_Join_empty_middle, user_dir_of_not_empty.
Qed.

Lemma empty_subdir_is_root_witness :
  Dir.resolve unix
    (serving "/data"
       {[ "dan"%string := {| UserInfo.Subdir := Some ""%string; UserInfo.Read := None;
                             UserInfo.Write := None; UserInfo.Delete := None;
                             UserInfo.List := None |} ]})
    (logged_in "dan") "/x"
  = Dir.resolve unix
      (serving "/data"
         {[ "dan"%string := {| UserInfo.Subdir := Some ""%string; UserInfo.Read := None;
                               UserInfo.Write := None; UserInfo.Delete := None;
                               UserInfo.List := None |} ]})
      anonymous "/x".
Proof.
  apply (empty_subdir_is_root unix
           (serving "/data"
              {[ "dan"%string := {| UserInfo.Subdir := Some ""%string; UserInfo.Read := None;
                                    UserInfo.Write := None; UserInfo.Delete := None;
                                    UserInfo.List := None |} ]})
           {| UserDir.BaseDir := "/srv" |} (logged_in "dan") "/x").
  reflexivity.
Defined.

(** X18. A request makes the one changing call it asks for, on the
    resolved paths, exactly when it returns without error or with an error
    of the filesystem; it makes no other changing call, and none at all
    when it returns an error of the adapter's own or panics. *)
Theorem request_makes_its_call_once {W : Type} (h : Host W) (goos : GOOS) (d : Dir.t)
        (r : Request) (w : W) :
  filter (fun c => is_mutation c = true) (run h (respond goos d r) w).2
  = match (run h (respond goos d r) w).1.1, request_call goos d r with
    | Returned None, Some call => [call]
    | Returned (Some (SysErr _)), Some call => [call]
    | _, _ => []
    end.
Proof.
  destruct r as [ctx name perm|ctx name flag perm|ctx name|ctx oldName newName|ctx name];
    unfold respond, request_call.
  - unfold Dir.Mkdir. trace_cases h w; done.
  - unfold Dir.OpenFile. trace_cases h w; done.
  - unfold Dir.RemoveAll. trace_cases h w; done.
  - unfold Dir.Rename. trace_cases h w; done.
  - unfold Dir.Stat. trace_cases h w; done.
Qed.
